(** * The LSP cache of regal (internal/lsp/cache/cache.go)

    A shallow embedding of the [Cache] type and its methods, and of the
    aggregate report of the [missing-metadata] rule whose tests accompany
    the cache.  Go maps are finite maps ([gmap]), slices are lists, a map
    read [val, ok := m[k]] is a pair of the value (the zero value when the
    key is absent) and the found flag, and every method takes the cache it
    works on and returns the cache it leaves behind. *)

From Stdlib Require Import String List OrderedTypeEx.
From stdpp Require Import base gmap strings list fin_maps.

Local Open Scope string_scope.
Local Open Scope list_scope.

(** ** Go map reads *)

(** [val, ok := m[k]]: the entry and [true], or the zero value and [false]. *)
Definition map_index {V : Type} (zero : V) (m : gmap string V) (k : string) : V * bool :=
  match m !! k with
  | Some v => (v, true)
  | None => (zero, false)
  end.

(** The error of [fmt.Errorf("failed to read file: %w", err)]: a message
    wrapped around the cause. *)
Inductive error (E : Type) : Type :=
| Errorf (msg : string) (cause : E).
Arguments Errorf {E} msg cause.

Section Cache.

(** [types.Diagnostic], [ast.Module] and [types.BuiltinPosition] are
    declared outside this package; the cache only stores them. *)
Context {Diagnostic ast_Module BuiltinPosition : Type}.

(** The error type of the operating system's read. *)
Context {os_error : Type}.

(** [type Cache struct]: six maps keyed by file URI.  A [*ast.Module] is a
    pointer, [None] being [nil]. *)
Record Cache : Type := mkCache {
  fileContents : gmap string string;
  modules : gmap string (option ast_Module);
  diagnosticsFile : gmap string (list Diagnostic);
  diagnosticsAggregate : gmap string (list Diagnostic);
  diagnosticsParseErrors : gmap string (list Diagnostic);
  builtinPositionsFile : gmap string (gmap N (list BuiltinPosition))
}.

Definition NewCache : Cache :=
  {| fileContents := ∅;
     modules := ∅;
     diagnosticsFile := ∅;
     diagnosticsAggregate := ∅;
     diagnosticsParseErrors := ∅;
     builtinPositionsFile := ∅ |}.

(** *** Document store *)

Definition GetAllFiles (c : Cache) : gmap string string := fileContents c.

Definition GetFileContents (uri : string) (c : Cache) : string * bool :=
  map_index EmptyString (fileContents c) uri.

Definition SetFileContents (uri content : string) (c : Cache) : Cache :=
  {| fileContents := <[uri := content]> (fileContents c);
     modules := modules c;
     diagnosticsFile := diagnosticsFile c;
     diagnosticsAggregate := diagnosticsAggregate c;
     diagnosticsParseErrors := diagnosticsParseErrors c;
     builtinPositionsFile := builtinPositionsFile c |}.

(** *** Structure store *)

Definition GetAllModules (c : Cache) : gmap string (option ast_Module) := modules c.

Definition GetModule (uri : string) (c : Cache) : option ast_Module * bool :=
  map_index None (modules c) uri.

Definition SetModule (uri : string) (module : option ast_Module) (c : Cache) : Cache :=
  {| fileContents := fileContents c;
     modules := <[uri := module]> (modules c);
     diagnosticsFile := diagnosticsFile c;
     diagnosticsAggregate := diagnosticsAggregate c;
     diagnosticsParseErrors := diagnosticsParseErrors c;
     builtinPositionsFile := builtinPositionsFile c |}.

(** *** Diagnostics store *)

Definition GetFileDiagnostics (uri : string) (c : Cache) : list Diagnostic * bool :=
  map_index [] (diagnosticsFile c) uri.

Definition SetFileDiagnostics (uri : string) (diags : list Diagnostic) (c : Cache) : Cache :=
  {| fileContents := fileContents c;
     modules := modules c;
     diagnosticsFile := <[uri := diags]> (diagnosticsFile c);
     diagnosticsAggregate := diagnosticsAggregate c;
     diagnosticsParseErrors := diagnosticsParseErrors c;
     builtinPositionsFile := builtinPositionsFile c |}.

Definition ClearFileDiagnostics (c : Cache) : Cache :=
  {| fileContents := fileContents c;
     modules := modules c;
     diagnosticsFile := ∅;
     diagnosticsAggregate := diagnosticsAggregate c;
     diagnosticsParseErrors := diagnosticsParseErrors c;
     builtinPositionsFile := builtinPositionsFile c |}.

Definition GetAggregateDiagnostics (uri : string) (c : Cache) : list Diagnostic * bool :=
  map_index [] (diagnosticsAggregate c) uri.

Definition SetAggregateDiagnostics (uri : string) (diags : list Diagnostic) (c : Cache) : Cache :=
  {| fileContents := fileContents c;
     modules := modules c;
     diagnosticsFile := diagnosticsFile c;
     diagnosticsAggregate := <[uri := diags]> (diagnosticsAggregate c);
     diagnosticsParseErrors := diagnosticsParseErrors c;
     builtinPositionsFile := builtinPositionsFile c |}.

Definition ClearAggregateDiagnostics (c : Cache) : Cache :=
  {| fileContents := fileContents c;
     modules := modules c;
     diagnosticsFile := diagnosticsFile c;
     diagnosticsAggregate := ∅;
     diagnosticsParseErrors := diagnosticsParseErrors c;
     builtinPositionsFile := builtinPositionsFile c |}.

Definition GetParseErrors (uri : string) (c : Cache) : list Diagnostic * bool :=
  map_index [] (diagnosticsParseErrors c) uri.

Definition SetParseErrors (uri : string) (diags : list Diagnostic) (c : Cache) : Cache :=
  {| fileContents := fileContents c;
     modules := modules c;
     diagnosticsFile := diagnosticsFile c;
     diagnosticsAggregate := diagnosticsAggregate c;
     diagnosticsParseErrors := <[uri := diags]> (diagnosticsParseErrors c);
     builtinPositionsFile := builtinPositionsFile c |}.

(** The merged read.  [len(parseDiags) > 0] is [0 <? length parseDiags];
    [append(allDiags, xs...)] is [allDiags ++ xs]. *)
Definition GetAllDiagnosticsForURI (uri : string) (c : Cache) : list Diagnostic :=
  let '(parseDiags, ok) := GetParseErrors uri c in
  if ok && (0 <? length parseDiags)%nat then parseDiags
  else
    let allDiags := [] in
    let '(aggDiags, ok) := GetAggregateDiagnostics uri c in
    let allDiags := if ok then allDiags ++ aggDiags else allDiags in
    let '(fileDiags, ok) := GetFileDiagnostics uri c in
    let allDiags := if ok then allDiags ++ fileDiags else allDiags in
    allDiags.

(** *** Position index store *)

Definition GetBuiltinPositions (uri : string) (c : Cache)
  : gmap N (list BuiltinPosition) * bool :=
  map_index ∅ (builtinPositionsFile c) uri.

Definition SetBuiltinPositions (uri : string)
    (positions : gmap N (list BuiltinPosition)) (c : Cache) : Cache :=
  {| fileContents := fileContents c;
     modules := modules c;
     diagnosticsFile := diagnosticsFile c;
     diagnosticsAggregate := diagnosticsAggregate c;
     diagnosticsParseErrors := diagnosticsParseErrors c;
     builtinPositionsFile := <[uri := positions]> (builtinPositionsFile c) |}.

Definition GetAllBuiltInPositions (c : Cache)
  : gmap string (gmap N (list BuiltinPosition)) := builtinPositionsFile c.

(** *** Delete

    [Delete] is six critical sections, one per mutex, run one after the
    other; each is one [delete(m, uri)] under the mutex of [m]. *)

Definition delete_fileContents (uri : string) (c : Cache) : Cache :=
  {| fileContents := delete uri (fileContents c);
     modules := modules c;
     diagnosticsFile := diagnosticsFile c;
     diagnosticsAggregate := diagnosticsAggregate c;
     diagnosticsParseErrors := diagnosticsParseErrors c;
     builtinPositionsFile := builtinPositionsFile c |}.

Definition delete_modules (uri : string) (c : Cache) : Cache :=
  {| fileContents := fileContents c;
     modules := delete uri (modules c);
     diagnosticsFile := diagnosticsFile c;
     diagnosticsAggregate := diagnosticsAggregate c;
     diagnosticsParseErrors := diagnosticsParseErrors c;
     builtinPositionsFile := builtinPositionsFile c |}.

Definition delete_diagnosticsFile (uri : string) (c : Cache) : Cache :=
  {| fileContents := fileContents c;
     modules := modules c;
     diagnosticsFile := delete uri (diagnosticsFile c);
     diagnosticsAggregate := diagnosticsAggregate c;
     diagnosticsParseErrors := diagnosticsParseErrors c;
     builtinPositionsFile := builtinPositionsFile c |}.

Definition delete_diagnosticsAggregate (uri : string) (c : Cache) : Cache :=
  {| fileContents := fileContents c;
     modules := modules c;
     diagnosticsFile := diagnosticsFile c;
     diagnosticsAggregate := delete uri (diagnosticsAggregate c);
     diagnosticsParseErrors := diagnosticsParseErrors c;
     builtinPositionsFile := builtinPositionsFile c |}.

Definition delete_diagnosticsParseErrors (uri : string) (c : Cache) : Cache :=
  {| fileContents := fileContents c;
     modules := modules c;
     diagnosticsFile := diagnosticsFile c;
     diagnosticsAggregate := diagnosticsAggregate c;
     diagnosticsParseErrors := delete uri (diagnosticsParseErrors c);
     builtinPositionsFile := builtinPositionsFile c |}.

Definition delete_builtinPositionsFile (uri : string) (c : Cache) : Cache :=
  {| fileContents := fileContents c;
     modules := modules c;
     diagnosticsFile := diagnosticsFile c;
     diagnosticsAggregate := diagnosticsAggregate c;
     diagnosticsParseErrors := diagnosticsParseErrors c;
     builtinPositionsFile := delete uri (builtinPositionsFile c) |}.

(** The critical sections of [Delete], in program order. *)
Definition Delete_sections (uri : string) : list (Cache → Cache) :=
  [ delete_fileContents uri;
    delete_modules uri;
    delete_diagnosticsFile uri;
    delete_diagnosticsAggregate uri;
    delete_diagnosticsParseErrors uri;
    delete_builtinPositionsFile uri ].

Definition run_sections (fs : list (Cache → Cache)) (c : Cache) : Cache :=
  foldl (λ acc f, f acc) c fs.

(** [Delete] run to completion with no other goroutine in between. *)
Definition Delete (uri : string) (c : Cache) : Cache :=
  run_sections (Delete_sections uri) c.

(** *** Loading from disk *)

(** [os.ReadFile]: the bytes of the file at a path, or an error.  A Go
    string is its bytes, so [string(content)] changes nothing. *)
Context (os_ReadFile : string → string + os_error).

(** [UpdateCacheForURIFromDisk]: the returned pair [(string, error)], a
    [nil] error being [None], and the cache afterwards. *)
Definition UpdateCacheForURIFromDisk (uri path : string) (c : Cache)
  : (string * option (error os_error)) * Cache :=
  match os_ReadFile path with
  | inr err => ((EmptyString, Some (Errorf "failed to read file: " err)), c)
  | inl content =>
      let currentContent := content in
      let '(cachedContent, ok) := GetFileContents uri c in
      if ok && String.eqb cachedContent currentContent
      then ((cachedContent, None), c)
      else ((currentContent, None), SetFileContents uri currentContent c)
  end.

(** *** The mutating methods as data

    One constructor per method that writes to the cache, so that a
    history of calls is a list. *)
Inductive Op : Type :=
| OpSetFileContents (uri content : string)
| OpSetModule (uri : string) (module : option ast_Module)
| OpSetFileDiagnostics (uri : string) (diags : list Diagnostic)
| OpClearFileDiagnostics
| OpSetAggregateDiagnostics (uri : string) (diags : list Diagnostic)
| OpClearAggregateDiagnostics
| OpSetParseErrors (uri : string) (diags : list Diagnostic)
| OpSetBuiltinPositions (uri : string) (positions : gmap N (list BuiltinPosition))
| OpDelete (uri : string)
| OpUpdateCacheForURIFromDisk (uri path : string).

Definition exec (op : Op) (c : Cache) : Cache :=
  match op with
  | OpSetFileContents uri content => SetFileContents uri content c
  | OpSetModule uri module => SetModule uri module c
  | OpSetFileDiagnostics uri diags => SetFileDiagnostics uri diags c
  | OpClearFileDiagnostics => ClearFileDiagnostics c
  | OpSetAggregateDiagnostics uri diags => SetAggregateDiagnostics uri diags c
  | OpClearAggregateDiagnostics => ClearAggregateDiagnostics c
  | OpSetParseErrors uri diags => SetParseErrors uri diags c
  | OpSetBuiltinPositions uri positions => SetBuiltinPositions uri positions c
  | OpDelete uri => Delete uri c
  | OpUpdateCacheForURIFromDisk uri path => snd (UpdateCacheForURIFromDisk uri path c)
  end.

Definition run (ops : list Op) (c : Cache) : Cache :=
  foldl (λ acc op, exec op acc) c ops.

End Cache.

Arguments Cache : clear implicits.
Arguments Op : clear implicits.

(** ** Aggregation over the cache *)

Section AggregateState.

Context {Diagnostic ast_Module BuiltinPosition Contribution : Type}.

(** The per-file analysis pass and the cross-file rule of one aggregate
    category; both are supplied by the linter, outside this package. *)
Context (aggregate : string → option ast_Module → option Contribution).
Context (evaluate : list Contribution → list Diagnostic).

(** Modelled from the spec: the pass that collects the contributions is
    not part of the cache.  The AggregateState is the union, across all
    file identifiers the cache currently knows a module for, of their
    contributions. *)
Definition AggregateState (c : Cache Diagnostic ast_Module BuiltinPosition)
  : list Contribution :=
  omap (λ entry, aggregate (fst entry) (snd entry)) (map_to_list (GetAllModules c)).

(** Modelled from the spec: [recompute] evaluates the category's rule over
    the current AggregateState. *)
Definition recompute (c : Cache Diagnostic ast_Module BuiltinPosition)
  : list Diagnostic :=
  evaluate (AggregateState c).

End AggregateState.

(** ** The [missing-metadata] aggregate rule

    The rule's tests (regal.rules.custom["missing-metadata_test"]) fix the
    shape of a contribution and of a violation; the rule body itself is
    not among the sources. *)

(** A location [row:col:text]; the tests carry the text base64-encoded in
    contributions and decoded in violations, here it is decoded throughout. *)
Record Location : Type := mkLocation {
  row : N;
  col : N;
  text : string
}.

(** One rule of a file: its full path, whether it is annotated, and where
    its head is ([rule_annotations] and [rule_locations] of the tests). *)
Record RuleFact : Type := mkRuleFact {
  rule_path : string;
  rule_annotated : bool;
  rule_location : Location
}.

(** One file's contribution: [aggregate_source] and [aggregate_data]. *)
Record AggregateContribution : Type := mkContribution {
  source_file : string;
  package_path : list string;
  package_annotated : bool;
  package_location : Location;
  rules : list RuleFact
}.

(** A violation as the tests of [aggregate_report] spell it out. *)
Record Violation : Type := mkViolation {
  category : string;
  description : string;
  level : string;
  location_file : string;
  location : Location;
  related_resources : list (string * string);
  title : string
}.

(** What a finding is about: a package or a rule, by path. *)
Inductive Subject : Type :=
| OfPackage (path : list string)
| OfRule (path : string).

Record Finding : Type := mkFinding {
  subject : Subject;
  finding_file : string;
  finding_location : Location
}.

Section MissingMetadata.

(** [config.docs.resolve_url("$baseUrl/$category/missing-metadata", "custom")]. *)
Context (docs_url : string).

Definition to_violation (f : Finding) : Violation :=
  {| category := "custom";
     description := "Package or rule missing metadata";
     level := "error";
     location_file := finding_file f;
     location := finding_location f;
     related_resources := [("documentation", docs_url)];
     title := "missing-metadata" |}.

(** Modelled from the spec: the contributions for one package path (a
    package can span files). *)
Definition package_contributors (state : list AggregateContribution)
    (p : list string) : list AggregateContribution :=
  filter (λ c, package_path c = p) state.

(** Modelled from the spec: a package is documented if any contributing
    file shows it annotated. *)
Definition package_documented (state : list AggregateContribution)
    (p : list string) : bool :=
  existsb package_annotated (package_contributors state p).

(** Modelled from the spec: the location reported is that of the
    contributor with the lexicographically smallest file identifier. *)
Definition smallest_file (files : list string) (f : string) : bool :=
  forallb (String.leb f) files.

(** Modelled from the spec: the finding for an undocumented package, at
    the contributor with the smallest file identifier. *)
Definition package_finding (state : list AggregateContribution)
    (c : AggregateContribution) : option Finding :=
  if negb (package_documented state (package_path c))
     && smallest_file (source_file <$> package_contributors state (package_path c))
                      (source_file c)
  then Some {| subject := OfPackage (package_path c);
               finding_file := source_file c;
               finding_location := package_location c |}
  else None.

(** Modelled from the spec: one finding per undocumented package. *)
Definition package_findings (state : list AggregateContribution) : list Finding :=
  omap (package_finding state) state.

(** Modelled from the spec: every rule fact of the state with the file
    that supplied it. *)
Definition rule_contributions (state : list AggregateContribution)
  : list (string * RuleFact) :=
  c ← state; (λ r, (source_file c, r)) <$> rules c.

Definition rule_contributors (state : list AggregateContribution)
    (p : string) : list (string * RuleFact) :=
  filter (λ fr, rule_path (snd fr) = p) (rule_contributions state).

(** Modelled from the spec: a rule is judged by the contributions for its
    own path, whichever file supplied them; it is documented if any of
    them shows it annotated (the test
    [test_success_one_missing_one_found_rule_metadata_report]). *)
Definition rule_documented (state : list AggregateContribution) (p : string) : bool :=
  existsb (λ fr, rule_annotated (snd fr)) (rule_contributors state p).

(** Modelled from the spec: the finding for an undocumented rule, at the
    rule's own contributed location. *)
Definition rule_finding (state : list AggregateContribution)
    (fr : string * RuleFact) : option Finding :=
  if negb (rule_documented state (rule_path (snd fr)))
     && smallest_file (fst <$> rule_contributors state (rule_path (snd fr))) (fst fr)
  then Some {| subject := OfRule (rule_path (snd fr));
               finding_file := fst fr;
               finding_location := rule_location (snd fr) |}
  else None.

(** Modelled from the spec: one finding per undocumented rule. *)
Definition rule_findings (state : list AggregateContribution) : list Finding :=
  omap (rule_finding state) (rule_contributions state).

Definition findings (state : list AggregateContribution) : list Finding :=
  package_findings state ++ rule_findings state.

(** Modelled from the spec: [aggregate_report], the [recompute] of the
    missing-metadata category over an AggregateState. *)
Definition aggregate_report (state : list AggregateContribution) : list Violation :=
  to_violation <$> findings state.

End MissingMetadata.

(** *** The modules of the rule's tests, as contributions *)

(** [package foo.bar] with no annotation, file [p.rego]. *)
Definition agg_package_only : AggregateContribution :=
  {| source_file := "p.rego";
     package_path := ["foo"; "bar"];
     package_annotated := false;
     package_location := mkLocation 1 1 "package";
     rules := [] |}.

(** The same package under a [# METADATA] block: the keyword is on row 3. *)
Definition agg_package_annotated : AggregateContribution :=
  {| source_file := "p.rego";
     package_path := ["foo"; "bar"];
     package_annotated := true;
     package_location := mkLocation 3 1 "package";
     rules := [] |}.

(** Annotated package, rule [baz := true] on row 5 without metadata. *)
Definition agg_rule_missing : AggregateContribution :=
  {| source_file := "p.rego";
     package_path := ["foo"; "bar"];
     package_annotated := true;
     package_location := mkLocation 3 1 "package";
     rules := [mkRuleFact "foo.bar.baz" false (mkLocation 5 1 "baz := true")] |}.

(** Annotated package and annotated rule [baz]. *)
Definition agg_rule_annotated : AggregateContribution :=
  {| source_file := "p.rego";
     package_path := ["foo"; "bar"];
     package_annotated := true;
     package_location := mkLocation 3 1 "package";
     rules := [mkRuleFact "foo.bar.baz" true (mkLocation 7 1 "baz := true")] |}.

(** The two modules of the last test: the rule is bare in the first and
    annotated in the second, whose package is bare. *)
Definition agg_rule_bare_in_first : AggregateContribution :=
  {| source_file := "p.rego";
     package_path := ["foo"; "bar"];
     package_annotated := true;
     package_location := mkLocation 3 1 "package";
     rules := [mkRuleFact "foo.bar.rule" false (mkLocation 5 1 "rule := true")] |}.

Definition agg_rule_annotated_in_second : AggregateContribution :=
  {| source_file := "p.rego";
     package_path := ["foo"; "bar"];
     package_annotated := false;
     package_location := mkLocation 2 1 "package";
     rules := [mkRuleFact "foo.bar.rule" true (mkLocation 6 1 "rule := false")] |}.

(** ** Histories and races *)

Section Histories.

Context {Diagnostic ast_Module BuiltinPosition : Type}.

(** Whether a call writes the entry of [uri] in one of the diagnostics maps. *)
Definition sets_fileDiagnostics (uri : string)
    (op : Op Diagnostic ast_Module BuiltinPosition) : bool :=
  match op with
  | OpSetFileDiagnostics u _ => String.eqb u uri
  | _ => false
  end.

Definition sets_aggregateDiagnostics (uri : string)
    (op : Op Diagnostic ast_Module BuiltinPosition) : bool :=
  match op with
  | OpSetAggregateDiagnostics u _ => String.eqb u uri
  | _ => false
  end.

Definition sets_parseErrors (uri : string)
    (op : Op Diagnostic ast_Module BuiltinPosition) : bool :=
  match op with
  | OpSetParseErrors u _ => String.eqb u uri
  | _ => false
  end.

(** The six getters with a found flag, in the order in which [Delete]
    visits their maps. *)
Inductive Getter : Type :=
| OfFileContents
| OfModule
| OfFileDiagnostics
| OfAggregateDiagnostics
| OfParseErrors
| OfBuiltinPositions.

Definition found (g : Getter) (uri : string)
    (c : Cache Diagnostic ast_Module BuiltinPosition) : bool :=
  match g with
  | OfFileContents => snd (GetFileContents uri c)
  | OfModule => snd (GetModule uri c)
  | OfFileDiagnostics => snd (GetFileDiagnostics uri c)
  | OfAggregateDiagnostics => snd (GetAggregateDiagnostics uri c)
  | OfParseErrors => snd (GetParseErrors uri c)
  | OfBuiltinPositions => snd (GetBuiltinPositions uri c)
  end.

(** The position of a getter's map among the critical sections of [Delete]. *)
Definition section_index (g : Getter) : nat :=
  match g with
  | OfFileContents => 0
  | OfModule => 1
  | OfFileDiagnostics => 2
  | OfAggregateDiagnostics => 3
  | OfParseErrors => 4
  | OfBuiltinPositions => 5
  end.

(** The cache when the goroutine running [Delete uri] has left its first
    [n] critical sections. *)
Definition Delete_progress (uri : string) (n : nat)
    (c : Cache Diagnostic ast_Module BuiltinPosition)
  : Cache Diagnostic ast_Module BuiltinPosition :=
  run_sections (take n (Delete_sections uri)) c.

(** A schedule interleaves the critical sections of the deleting goroutine
    with getter calls of readers; every getter holds its map's mutex for
    the whole read, so a call is one event. *)
Inductive event : Type :=
| Deleter_section
| Reader_get (g : Getter).

(** The found flags the readers see, in the order of the schedule. *)
Fixpoint race (uri : string) (schedule : list event)
    (pending : list (Cache Diagnostic ast_Module BuiltinPosition
                     → Cache Diagnostic ast_Module BuiltinPosition))
    (c : Cache Diagnostic ast_Module BuiltinPosition) : list (Getter * bool) :=
  match schedule with
  | [] => []
  | Deleter_section :: rest =>
      match pending with
      | [] => race uri rest [] c
      | f :: fs => race uri rest fs (f c)
      end
  | Reader_get g :: rest => (g, found g uri c) :: race uri rest pending c
  end.

(** What readers could see of a delete that takes effect at one instant:
    once a getter has missed the identifier, no later getter finds it. *)
Fixpoint atomic_history (obs : list (Getter * bool)) : bool :=
  match obs with
  | [] => true
  | (_, true) :: rest => atomic_history rest
  | (_, false) :: rest => forallb (λ o, negb (snd o)) rest
  end.

End Histories.

(** A cache that holds an entry for [a.rego] in each of its six maps, and a
    parse error for [b.rego]. *)
Definition cache_ab : Cache nat unit unit :=
  {| fileContents := {[ "a.rego" := "package a" ]};
     modules := {[ "a.rego" := Some tt ]};
     diagnosticsFile := {[ "a.rego" := [3%nat] ]};
     diagnosticsAggregate := {[ "a.rego" := [2%nat] ]};
     diagnosticsParseErrors := {[ "a.rego" := [1%nat]; "b.rego" := [7%nat] ]};
     builtinPositionsFile := {[ "a.rego" := ∅ ]} |}.

(** The same without parse errors for [a.rego]. *)
Definition cache_parsed : Cache nat unit unit :=
  {| fileContents := {[ "a.rego" := "package a" ]};
     modules := {[ "a.rego" := Some tt ]};
     diagnosticsFile := {[ "a.rego" := [3%nat] ]};
     diagnosticsAggregate := {[ "a.rego" := [2%nat; 5%nat] ]};
     diagnosticsParseErrors := {[ "a.rego" := [] ]};
     builtinPositionsFile := ∅ |}.

(** A disk on which every path holds the text [package a]. *)
Definition disk_a : string → string + unit := λ _, inl "package a".


(** A second file, [q.rego], with the bare package [foo.baz]. *)
Definition agg_other_package : AggregateContribution :=
  {| source_file := "q.rego";
     package_path := ["foo"; "baz"];
     package_annotated := false;
     package_location := mkLocation 1 1 "package";
     rules := [] |}.

(** The violation the tests expect at a location of [p.rego]. *)
Definition violation_at (docs_url file : string) (l : Location) : Violation :=
  {| category := "custom";
     description := "Package or rule missing metadata";
     level := "error";
     location_file := file;
     location := l;
     related_resources := [("documentation", docs_url)];
     title := "missing-metadata" |}.

(** ** Footprints of calls, and reads that span several critical sections *)

Section Footprints.

Context {Diagnostic ast_Module BuiltinPosition : Type}.

(** Whether every entry a call can write or remove is an entry of [uri];
    the two clears reach every identifier. *)
Definition writes_only (uri : string)
    (op : Op Diagnostic ast_Module BuiltinPosition) : bool :=
  match op with
  | OpSetFileContents u _ => String.eqb u uri
  | OpSetModule u _ => String.eqb u uri
  | OpSetFileDiagnostics u _ => String.eqb u uri
  | OpClearFileDiagnostics => false
  | OpSetAggregateDiagnostics u _ => String.eqb u uri
  | OpClearAggregateDiagnostics => false
  | OpSetParseErrors u _ => String.eqb u uri
  | OpSetBuiltinPositions u _ => String.eqb u uri
  | OpDelete u => String.eqb u uri
  | OpUpdateCacheForURIFromDisk u _ => String.eqb u uri
  end.

(** Whether a call can change what one of the three diagnostics maps holds
    for [uri]. *)
Definition writes_diagnostics (uri : string)
    (op : Op Diagnostic ast_Module BuiltinPosition) : bool :=
  match op with
  | OpSetFileDiagnostics u _ => String.eqb u uri
  | OpClearFileDiagnostics => true
  | OpSetAggregateDiagnostics u _ => String.eqb u uri
  | OpClearAggregateDiagnostics => true
  | OpSetParseErrors u _ => String.eqb u uri
  | OpDelete u => String.eqb u uri
  | _ => false
  end.

(** [GetAllDiagnosticsForURI] holds no mutex of its own: its three getter
    calls are three critical sections, so with other goroutines running
    [GetParseErrors] reads the cache at one instant,
    [GetAggregateDiagnostics] at a later one and [GetFileDiagnostics] at a
    third. *)
Definition GetAllDiagnosticsForURI_at (uri : string)
    (c1 c2 c3 : Cache Diagnostic ast_Module BuiltinPosition) : list Diagnostic :=
  let '(parseDiags, ok) := GetParseErrors uri c1 in
  if ok && (0 <? length parseDiags)%nat then parseDiags
  else
    let allDiags := [] in
    let '(aggDiags, ok) := GetAggregateDiagnostics uri c2 in
    let allDiags := if ok then allDiags ++ aggDiags else allDiags in
    let '(fileDiags, ok) := GetFileDiagnostics uri c3 in
    let allDiags := if ok then allDiags ++ fileDiags else allDiags in
    allDiags.

(** The critical section of [Delete] that works on the map of a getter. *)
Definition Delete_section (g : Getter) (uri : string)
    (c : Cache Diagnostic ast_Module BuiltinPosition)
  : Cache Diagnostic ast_Module BuiltinPosition :=
  match g with
  | OfFileContents => delete_fileContents uri c
  | OfModule => delete_modules uri c
  | OfFileDiagnostics => delete_diagnosticsFile uri c
  | OfAggregateDiagnostics => delete_diagnosticsAggregate uri c
  | OfParseErrors => delete_diagnosticsParseErrors uri c
  | OfBuiltinPositions => delete_builtinPositionsFile uri c
  end.

(** The getters in the order in which [Delete] visits their maps. *)
Definition getters : list Getter :=
  [OfFileContents; OfModule; OfFileDiagnostics; OfAggregateDiagnostics;
   OfParseErrors; OfBuiltinPositions].

(** Critical sections of several goroutines running [Delete], each named
    by its map and its identifier, executed in the order of the list. *)
Definition run_Delete_sections (steps : list (Getter * string))
    (c : Cache Diagnostic ast_Module BuiltinPosition)
  : Cache Diagnostic ast_Module BuiltinPosition :=
  foldl (λ acc step, Delete_section (fst step) (snd step) acc) c steps.

(** Whether the readers of a schedule call the getters against the order
    of [Delete]: each call is on the map of the call before or on a map
    that [Delete] visits earlier. *)
Fixpoint reads_descending (bound : nat) (schedule : list event) : bool :=
  match schedule with
  | [] => true
  | Deleter_section :: rest => reads_descending bound rest
  | Reader_get g :: rest =>
      (section_index g <=? bound)%nat && reads_descending (section_index g) rest
  end.

(** The observations a history holds of one getter. *)
Definition observations_of (g : Getter) (obs : list (Getter * bool))
  : list (Getter * bool) :=
  filter (λ o, section_index (fst o) = section_index g) obs.

End Footprints.

Section Writers.

Context {Diagnostic ast_Module BuiltinPosition : Type}.

(** Whether a call can create the content entry of [uri]: the setter, and
    the load from disk. *)
Definition sets_fileContents (uri : string)
    (op : Op Diagnostic ast_Module BuiltinPosition) : bool :=
  match op with
  | OpSetFileContents u _ => String.eqb u uri
  | OpUpdateCacheForURIFromDisk u _ => String.eqb u uri
  | _ => false
  end.

Definition sets_module (uri : string)
    (op : Op Diagnostic ast_Module BuiltinPosition) : bool :=
  match op with
  | OpSetModule u _ => String.eqb u uri
  | _ => false
  end.

Definition sets_builtinPositions (uri : string)
    (op : Op Diagnostic ast_Module BuiltinPosition) : bool :=
  match op with
  | OpSetBuiltinPositions u _ => String.eqb u uri
  | _ => false
  end.

End Writers.

(** A disk on which no path can be read. *)
Definition disk_unreadable : string → string + unit := λ _, inr tt.

(** ** What the getters return during a race *)

Section GetterResults.

Context {Diagnostic ast_Module BuiltinPosition : Type}.

(** The pair a getter returns, one constructor per getter. *)
Inductive GetterResult : Type :=
| FileContentsResult (r : string * bool)
| ModuleResult (r : option ast_Module * bool)
| FileDiagnosticsResult (r : list Diagnostic * bool)
| AggregateDiagnosticsResult (r : list Diagnostic * bool)
| ParseErrorsResult (r : list Diagnostic * bool)
| BuiltinPositionsResult (r : gmap N (list BuiltinPosition) * bool).

(** One call of a getter. *)
Definition call (g : Getter) (uri : string)
    (c : Cache Diagnostic ast_Module BuiltinPosition) : GetterResult :=
  match g with
  | OfFileContents => FileContentsResult (GetFileContents uri c)
  | OfModule => ModuleResult (GetModule uri c)
  | OfFileDiagnostics => FileDiagnosticsResult (GetFileDiagnostics uri c)
  | OfAggregateDiagnostics => AggregateDiagnosticsResult (GetAggregateDiagnostics uri c)
  | OfParseErrors => ParseErrorsResult (GetParseErrors uri c)
  | OfBuiltinPositions => BuiltinPositionsResult (GetBuiltinPositions uri c)
  end.

(** What a getter returns for a key its map does not hold: the zero value
    and [false]. *)
Definition not_found (g : Getter) : GetterResult :=
  match g with
  | OfFileContents => FileContentsResult (EmptyString, false)
  | OfModule => ModuleResult (None, false)
  | OfFileDiagnostics => FileDiagnosticsResult ([], false)
  | OfAggregateDiagnostics => AggregateDiagnosticsResult ([], false)
  | OfParseErrors => ParseErrorsResult ([], false)
  | OfBuiltinPositions => BuiltinPositionsResult (∅, false)
  end.

(** The found flag of a result. *)
Definition result_found (res : GetterResult) : bool :=
  match res with
  | FileContentsResult r => snd r
  | ModuleResult r => snd r
  | FileDiagnosticsResult r => snd r
  | AggregateDiagnosticsResult r => snd r
  | ParseErrorsResult r => snd r
  | BuiltinPositionsResult r => snd r
  end.

(** The race of [race], with each reader keeping the whole pair its getter
    returned. *)
Fixpoint race_results (uri : string) (schedule : list event)
    (pending : list (Cache Diagnostic ast_Module BuiltinPosition
                     → Cache Diagnostic ast_Module BuiltinPosition))
    (c : Cache Diagnostic ast_Module BuiltinPosition)
  : list (Getter * GetterResult) :=
  match schedule with
  | [] => []
  | Deleter_section :: rest =>
      match pending with
      | [] => race_results uri rest [] c
      | f :: fs => race_results uri rest fs (f c)
      end
  | Reader_get g :: rest => (g, call g uri c) :: race_results uri rest pending c
  end.

End GetterResults.

(** Subjects are compared when the findings about one subject are picked
    out of a report. *)
Global Instance Subject_eq_dec : EqDecision Subject.
Proof. solve_decision. Defined.
(** * Properties of the cache *)

Section CacheFacts.

Context {Diagnostic ast_Module BuiltinPosition os_error : Type}.
Context (os_ReadFile : string → string + os_error).

Implicit Types (c : Cache Diagnostic ast_Module BuiltinPosition).
Implicit Types (uri path : string).
Implicit Types (op : Op Diagnostic ast_Module BuiltinPosition).

Lemma map_index_Some {V} (zero v : V) (m : gmap string V) k :
  m !! k = Some v → map_index zero m k = (v, true).
Proof. unfold map_index. by intros ->. Qed.

Lemma map_index_None {V} (zero : V) (m : gmap string V) k :
  m !! k = None → map_index zero m k = (zero, false).
Proof. unfold map_index. by intros ->. Qed.

Lemma map_index_found {V} (zero : V) (m : gmap string V) k :
  snd (map_index zero m k) = true ↔ is_Some (m !! k).
Proof.
  unfold map_index. destruct (m !! k) as [v|]; simpl.
  - split; eauto.
  - split; [discriminate | by intros [? ?]].
Qed.

(** [Delete] written out on the fields. *)
Lemma Delete_fields uri c :
  Delete uri c =
  {| fileContents := delete uri (fileContents c);
     modules := delete uri (modules c);
     diagnosticsFile := delete uri (diagnosticsFile c);
     diagnosticsAggregate := delete uri (diagnosticsAggregate c);
     diagnosticsParseErrors := delete uri (diagnosticsParseErrors c);
     builtinPositionsFile := delete uri (builtinPositionsFile c) |}.
Proof. reflexivity. Qed.

(** Loading from disk touches the content map at most. *)
Lemma UpdateCacheForURIFromDisk_frame uri path c :
  let c' := snd (UpdateCacheForURIFromDisk os_ReadFile uri path c) in
  modules c' = modules c
  ∧ diagnosticsFile c' = diagnosticsFile c
  ∧ diagnosticsAggregate c' = diagnosticsAggregate c
  ∧ diagnosticsParseErrors c' = diagnosticsParseErrors c
  ∧ builtinPositionsFile c' = builtinPositionsFile c.
Proof.
  unfold UpdateCacheForURIFromDisk.
  destruct (os_ReadFile path) as [content|err]; simpl; [|done].
  destruct (GetFileContents uri c) as [cached ok].
  by destruct (ok && String.eqb cached content).
Qed.

(** C1. The merged read of an identifier whose parse-failure entry exists
    and is non-empty is exactly that list, whatever the file-local and
    aggregate maps hold; otherwise it is the aggregate list (if present)
    followed by the file-local list (if present), each in stored order. *)
Theorem GetAllDiagnosticsForURI_precedence c uri :
  (∀ parseDiags,
      diagnosticsParseErrors c !! uri = Some parseDiags →
      parseDiags ≠ [] →
      GetAllDiagnosticsForURI uri c = parseDiags)
  ∧ (diagnosticsParseErrors c !! uri = None
     ∨ diagnosticsParseErrors c !! uri = Some [] →
     GetAllDiagnosticsForURI uri c
     = default [] (diagnosticsAggregate c !! uri)
       ++ default [] (diagnosticsFile c !! uri)).
Proof.
  unfold GetAllDiagnosticsForURI, GetParseErrors, GetAggregateDiagnostics,
    GetFileDiagnostics, map_index.
  split.
  - intros parseDiags -> Hne. destruct parseDiags as [|d ds]; [done|]. reflexivity.
  - intros [Hparse | Hparse]; rewrite Hparse; simpl;
      destruct (diagnosticsAggregate c !! uri) as [agg|];
      destruct (diagnosticsFile c !! uri) as [file|]; simpl;
      by rewrite ?app_nil_r.
Qed.

(** C10. For an identifier with no entry in any of the three diagnostics
    maps the merged read is the empty list, and it is the same empty list
    once the identifier has been analysed with zero diagnostics: the merged
    read has no found flag, although the per-map getters tell the two apart. *)
Theorem GetAllDiagnosticsForURI_absent c uri :
  diagnosticsParseErrors c !! uri = None →
  diagnosticsAggregate c !! uri = None →
  diagnosticsFile c !! uri = None →
  let analysed :=
    SetParseErrors uri [] (SetAggregateDiagnostics uri [] (SetFileDiagnostics uri [] c)) in
  GetAllDiagnosticsForURI uri c = []
  ∧ GetAllDiagnosticsForURI uri analysed = []
  ∧ GetAllDiagnosticsForURI uri (SetFileDiagnostics uri [] c) = []
  ∧ snd (GetFileDiagnostics uri c) = false
  ∧ snd (GetFileDiagnostics uri analysed) = true.
Proof.
  intros Hp Ha Hf analysed. subst analysed.
  unfold GetAllDiagnosticsForURI, GetParseErrors, GetAggregateDiagnostics,
    GetFileDiagnostics, map_index; simpl.
  rewrite Hp, Ha, Hf, !lookup_insert_eq. simpl. done.
Qed.

(** A diagnostics map never written for [uri] has no entry for it. *)
Lemma run_never_set_file uri ops c :
  diagnosticsFile c !! uri = None →
  forallb (λ op, negb (sets_fileDiagnostics uri op)) ops = true →
  diagnosticsFile (run os_ReadFile ops c) !! uri = None.
Proof.
  revert c. induction ops as [|op ops IH]; intros c Hc Hops; [done|].
  simpl in Hops. apply andb_true_iff in Hops as [Hop Hops].
  simpl. apply IH; [|done].
  destruct op; simpl; try done.
  - simpl in Hop. apply negb_true_iff, String.eqb_neq in Hop.
    by rewrite lookup_insert_ne.
  - rewrite lookup_delete_None. by right.
  - by destruct (UpdateCacheForURIFromDisk_frame uri0 path c) as (_ & -> & _).
Qed.

Lemma run_never_set_aggregate uri ops c :
  diagnosticsAggregate c !! uri = None →
  forallb (λ op, negb (sets_aggregateDiagnostics uri op)) ops = true →
  diagnosticsAggregate (run os_ReadFile ops c) !! uri = None.
Proof.
  revert c. induction ops as [|op ops IH]; intros c Hc Hops; [done|].
  simpl in Hops. apply andb_true_iff in Hops as [Hop Hops].
  simpl. apply IH; [|done].
  destruct op; simpl; try done.
  - simpl in Hop. apply negb_true_iff, String.eqb_neq in Hop.
    by rewrite lookup_insert_ne.
  - rewrite lookup_delete_None. by right.
  - by destruct (UpdateCacheForURIFromDisk_frame uri0 path c) as (_ & _ & -> & _).
Qed.

Lemma run_never_set_parse uri ops c :
  diagnosticsParseErrors c !! uri = None →
  forallb (λ op, negb (sets_parseErrors uri op)) ops = true →
  diagnosticsParseErrors (run os_ReadFile ops c) !! uri = None.
Proof.
  revert c. induction ops as [|op ops IH]; intros c Hc Hops; [done|].
  simpl in Hops. apply andb_true_iff in Hops as [Hop Hops].
  simpl. apply IH; [|done].
  destruct op; simpl; try done.
  - simpl in Hop. apply negb_true_iff, String.eqb_neq in Hop.
    by rewrite lookup_insert_ne.
  - rewrite lookup_delete_None. by right.
  - by destruct (UpdateCacheForURIFromDisk_frame uri0 path c) as (_ & _ & _ & -> & _).
Qed.

(** C9. Every getter's found flag is true exactly when the map holds an
    entry; an entry set to the empty list reads back as the empty list with
    found true, and after any history of calls from a new cache in which a
    diagnostics map was never written for an identifier, that map's getter
    returns found false for it. *)
Theorem found_flag_distinguishes uri :
  (∀ c,
      (found OfFileContents uri c = true ↔ is_Some (fileContents c !! uri))
      ∧ (found OfModule uri c = true ↔ is_Some (modules c !! uri))
      ∧ (found OfFileDiagnostics uri c = true ↔ is_Some (diagnosticsFile c !! uri))
      ∧ (found OfAggregateDiagnostics uri c = true
         ↔ is_Some (diagnosticsAggregate c !! uri))
      ∧ (found OfParseErrors uri c = true ↔ is_Some (diagnosticsParseErrors c !! uri))
      ∧ (found OfBuiltinPositions uri c = true
         ↔ is_Some (builtinPositionsFile c !! uri)))
  ∧ (∀ c,
      GetFileDiagnostics uri (SetFileDiagnostics uri [] c) = ([], true)
      ∧ GetAggregateDiagnostics uri (SetAggregateDiagnostics uri [] c) = ([], true)
      ∧ GetParseErrors uri (SetParseErrors uri [] c) = ([], true))
  ∧ (∀ ops,
      forallb (λ op, negb (sets_fileDiagnostics uri op)) ops = true →
      GetFileDiagnostics uri (run os_ReadFile ops NewCache) = ([], false))
  ∧ (∀ ops,
      forallb (λ op, negb (sets_aggregateDiagnostics uri op)) ops = true →
      GetAggregateDiagnostics uri (run os_ReadFile ops NewCache) = ([], false))
  ∧ (∀ ops,
      forallb (λ op, negb (sets_parseErrors uri op)) ops = true →
      GetParseErrors uri (run os_ReadFile ops NewCache) = ([], false)).
Proof.
  split; [|split; [|split; [|split]]].
  - intros c. unfold found, GetFileContents, GetModule, GetFileDiagnostics,
      GetAggregateDiagnostics, GetParseErrors, GetBuiltinPositions.
    repeat split; try (by apply map_index_found); by apply map_index_found.
  - intros c. repeat split; apply map_index_Some; simpl; apply lookup_insert_eq.
  - intros ops Hops. apply map_index_None, run_never_set_file; done.
  - intros ops Hops. apply map_index_None, run_never_set_aggregate; done.
  - intros ops Hops. apply map_index_None, run_never_set_parse; done.
Qed.

(** No call empties the parse-error map: of two identifiers with an entry,
    one still has its entry after any single call. *)
Lemma exec_keeps_a_parse_entry op c uri1 uri2 :
  uri1 ≠ uri2 →
  is_Some (diagnosticsParseErrors c !! uri1) →
  is_Some (diagnosticsParseErrors c !! uri2) →
  ∃ uri, snd (GetParseErrors uri (exec os_ReadFile op c)) = true.
Proof.
  intros Hne H1 H2. unfold GetParseErrors.
  destruct op; simpl;
    try (exists uri1; by apply map_index_found).
  - exists uri1. apply map_index_found. simpl.
    rewrite lookup_insert_is_Some. destruct (decide (uri = uri1)); auto.
  - destruct (decide (uri = uri1)) as [->|Hu].
    + exists uri2. apply map_index_found. by rewrite lookup_delete_ne.
    + exists uri1. apply map_index_found. by rewrite lookup_delete_ne.
  - exists uri1. apply map_index_found.
    by destruct (UpdateCacheForURIFromDisk_frame uri path c) as (_ & _ & _ & -> & _).
Qed.

(** C7 (amended). The file-local and the aggregate diagnostics map each
    have a get, a set and a clear; a clear empties that one map for every
    identifier and leaves the other five maps as they were.  The
    parse-failure map has a get and a set only: no call of the cache
    empties it. *)
Theorem Clear_resets_one_map c :
  (∀ uri, GetFileDiagnostics uri (ClearFileDiagnostics c) = ([], false))
  ∧ (∀ uri, GetAggregateDiagnostics uri (ClearAggregateDiagnostics c) = ([], false))
  ∧ (∀ uri diags,
       GetFileDiagnostics uri (SetFileDiagnostics uri diags c) = (diags, true)
       ∧ GetAggregateDiagnostics uri (SetAggregateDiagnostics uri diags c) = (diags, true)
       ∧ GetParseErrors uri (SetParseErrors uri diags c) = (diags, true))
  ∧ ClearFileDiagnostics c
    = mkCache (fileContents c) (modules c) ∅ (diagnosticsAggregate c)
        (diagnosticsParseErrors c) (builtinPositionsFile c)
  ∧ ClearAggregateDiagnostics c
    = mkCache (fileContents c) (modules c) (diagnosticsFile c) ∅
        (diagnosticsParseErrors c) (builtinPositionsFile c)
  ∧ (∀ op uri1 uri2,
       uri1 ≠ uri2 →
       is_Some (diagnosticsParseErrors c !! uri1) →
       is_Some (diagnosticsParseErrors c !! uri2) →
       ∃ uri, snd (GetParseErrors uri (exec os_ReadFile op c)) = true).
Proof.
  split; [intros uri; by apply map_index_None|].
  split; [intros uri; by apply map_index_None|].
  split.
  { intros uri diags.
    repeat split; apply map_index_Some; simpl; apply lookup_insert_eq. }
  split; [reflexivity|]. split; [reflexivity|].
  intros op uri1 uri2. apply exec_keeps_a_parse_entry.
Qed.

(** C2. After [Delete uri] each of the six getters returns the zero value
    and not-found for [uri], no map enumerates it, and the aggregate state
    of any category holds exactly the contributions of the other files: a
    recomputation is the same as if [uri] had never had a module. *)
Theorem Delete_complete c uri :
  GetFileContents uri (Delete uri c) = (EmptyString, false)
  ∧ GetModule uri (Delete uri c) = (None, false)
  ∧ GetFileDiagnostics uri (Delete uri c) = ([], false)
  ∧ GetAggregateDiagnostics uri (Delete uri c) = ([], false)
  ∧ GetParseErrors uri (Delete uri c) = ([], false)
  ∧ GetBuiltinPositions uri (Delete uri c) = (∅, false)
  ∧ GetAllFiles (Delete uri c) !! uri = None
  ∧ GetAllModules (Delete uri c) !! uri = None
  ∧ GetAllBuiltInPositions (Delete uri c) !! uri = None
  ∧ (∀ (Contribution : Type)
       (aggregate : string → option ast_Module → option Contribution)
       (x : Contribution),
       x ∈ AggregateState aggregate (Delete uri c)
       ↔ ∃ uri' module,
           uri' ≠ uri
           ∧ GetAllModules c !! uri' = Some module
           ∧ aggregate uri' module = Some x)
  ∧ (∀ (Contribution : Type)
       (aggregate : string → option ast_Module → option Contribution)
       (evaluate : list Contribution → list Diagnostic)
       (module : option ast_Module),
       recompute aggregate evaluate (Delete uri (SetModule uri module c))
       = recompute aggregate evaluate (Delete uri c)).
Proof.
  rewrite Delete_fields.
  unfold GetFileContents, GetModule, GetFileDiagnostics, GetAggregateDiagnostics,
    GetParseErrors, GetBuiltinPositions, GetAllFiles, GetAllModules,
    GetAllBuiltInPositions; simpl.
  repeat split; try (apply map_index_None; simpl); try apply lookup_delete_eq.
  - unfold AggregateState, GetAllModules; simpl.
    intros Hx. apply list_elem_of_omap in Hx as ([uri' module] & Hin & Hagg).
    apply elem_of_map_to_list, lookup_delete_Some in Hin as [Hne Hin].
    exists uri', module. simpl in Hagg. auto.
  - unfold AggregateState, GetAllModules; simpl.
    intros (uri' & module & Hne & Hin & Hagg).
    apply list_elem_of_omap. exists (uri', module). split; [|done].
    apply elem_of_map_to_list, lookup_delete_Some. auto.
  - intros Contribution aggregate evaluate module.
    unfold recompute, AggregateState, GetAllModules.
    rewrite !Delete_fields. simpl. by rewrite delete_insert_eq.
Qed.

(** C4 (amended). When the file is read, the call returns the content read
    and no error, whether or not the cache held it already; the cache is
    left exactly as it was when the cached content equals the content read,
    and otherwise only the content entry of [uri] is overwritten.  When the
    read fails the cache is left as it was. *)
Theorem UpdateCacheForURIFromDisk_content uri path c content :
  os_ReadFile path = inl content →
  fst (UpdateCacheForURIFromDisk os_ReadFile uri path c) = (content, None)
  ∧ (fileContents c !! uri = Some content →
     snd (UpdateCacheForURIFromDisk os_ReadFile uri path c) = c)
  ∧ (fileContents c !! uri ≠ Some content →
     snd (UpdateCacheForURIFromDisk os_ReadFile uri path c)
     = mkCache (<[uri := content]> (fileContents c)) (modules c) (diagnosticsFile c)
         (diagnosticsAggregate c) (diagnosticsParseErrors c) (builtinPositionsFile c)).
Proof.
  intros Hread. unfold UpdateCacheForURIFromDisk, GetFileContents, map_index.
  rewrite Hread.
  destruct (fileContents c !! uri) as [cached|] eqn:Hc; simpl.
  - destruct (String.eqb cached content) eqn:Heq; simpl.
    + apply String.eqb_eq in Heq as ->. repeat split; congruence.
    + apply String.eqb_neq in Heq. repeat split; congruence.
  - repeat split; congruence.
Qed.

(** *** Readers racing with [Delete] *)

Lemma Delete_progress_S uri (n : nat) f c :
  Delete_sections uri !! n = Some f →
  Delete_progress uri (S n) c = f (Delete_progress uri n c).
Proof.
  intros Hf. unfold Delete_progress, run_sections.
  by rewrite (take_S_r _ _ _ Hf), foldl_app.
Qed.

Lemma Delete_progress_done uri (n : nat) c :
  (6 ≤ n)%nat → Delete_progress uri n c = Delete uri c.
Proof.
  intros Hn. unfold Delete_progress, Delete.
  by rewrite take_ge by (simpl; lia).
Qed.

(** After [n] critical sections the first [n] maps have dropped [uri] and
    the others answer as before. *)
Lemma Delete_progress_found uri (n : nat) g c :
  found g uri (Delete_progress uri n c)
  = if bool_decide (section_index g < n)%nat then false else found g uri c.
Proof.
  assert (Hgone : ∀ V (zero : V) (m : gmap string V),
             snd (map_index zero (delete uri m) uri) = false).
  { intros V zero m. by rewrite (map_index_None _ _ _ (lookup_delete_eq m uri)). }
  do 6 (destruct n as [|n];
    [destruct g; case_bool_decide; simpl in *; try lia;
     first [reflexivity | apply Hgone]|]).
  rewrite Delete_progress_done by lia. rewrite Delete_fields.
  destruct g; rewrite bool_decide_eq_true_2 by (simpl; lia); apply Hgone.
Qed.

(** Every read in a race reads the cache between two critical sections. *)
Lemma race_reads_progress uri c schedule (n : nat) :
  Forall (λ o, ∃ k : nat, (n ≤ k)%nat ∧ snd o = found (fst o) uri (Delete_progress uri k c))
    (race uri schedule (drop n (Delete_sections uri)) (Delete_progress uri n c)).
Proof.
  revert n. induction schedule as [|ev schedule IH]; intros n; [constructor|].
  destruct ev as [|g]; simpl.
  - destruct (drop n (Delete_sections uri)) as [|f fs] eqn:Hdrop.
    + rewrite <- Hdrop. apply IH.
    + assert (Hf : Delete_sections uri !! n = Some f).
      { rewrite <- (Nat.add_0_r n), <- lookup_drop, Hdrop. reflexivity. }
      rewrite (drop_S _ _ _ Hf) in Hdrop. injection Hdrop as <-.
      rewrite <- (Delete_progress_S _ _ _ _ Hf).
      eapply Forall_impl; [exact (IH (S n))|].
      intros o (k & Hk & Ho). exists k. split; [lia | done].
  - constructor; [exists n; split; [lia | done] | apply IH].
Qed.

(** The cache after [n] critical sections of [Delete], field by field. *)
Lemma Delete_progress_fields uri (n : nat) c :
  Delete_progress uri n c
  = mkCache
      (if (0 <? n)%nat then delete uri (fileContents c) else fileContents c)
      (if (1 <? n)%nat then delete uri (modules c) else modules c)
      (if (2 <? n)%nat then delete uri (diagnosticsFile c) else diagnosticsFile c)
      (if (3 <? n)%nat then delete uri (diagnosticsAggregate c)
       else diagnosticsAggregate c)
      (if (4 <? n)%nat then delete uri (diagnosticsParseErrors c)
       else diagnosticsParseErrors c)
      (if (5 <? n)%nat then delete uri (builtinPositionsFile c)
       else builtinPositionsFile c).
Proof.
  do 6 (destruct n as [|n]; [by destruct c|]).
  rewrite Delete_progress_done by lia. apply Delete_fields.
Qed.

(** A getter called after [n] critical sections returns not-found if its
    map has been visited, and what it returned before the delete if not. *)
Lemma Delete_progress_call uri (n : nat) g c :
  call g uri (Delete_progress uri n c)
  = if bool_decide (section_index g < n)%nat then not_found g else call g uri c.
Proof.
  assert (Hgone : ∀ V (zero : V) (m : gmap string V),
             map_index zero (delete uri m) uri = (zero, false)).
  { intros V zero m. apply map_index_None, lookup_delete_eq. }
  rewrite Delete_progress_fields.
  destruct g; unfold call, not_found, GetFileContents, GetModule, GetFileDiagnostics,
    GetAggregateDiagnostics, GetParseErrors, GetBuiltinPositions; simpl;
    match goal with |- context [(?k <? n)%nat] => destruct (Nat.ltb_spec k n) end;
    case_bool_decide; try lia; by rewrite ?Hgone.
Qed.

(** Every call in a race returns what the getter returns on the cache
    between two critical sections. *)
Lemma race_results_progress uri c schedule (n : nat) :
  Forall (λ o, ∃ k : nat, (n ≤ k)%nat
                 ∧ snd o = call (fst o) uri (Delete_progress uri k c))
    (race_results uri schedule (drop n (Delete_sections uri)) (Delete_progress uri n c)).
Proof.
  revert n. induction schedule as [|ev schedule IH]; intros n; [constructor|].
  destruct ev as [|g]; simpl.
  - destruct (drop n (Delete_sections uri)) as [|f fs] eqn:Hdrop.
    + rewrite <- Hdrop. apply IH.
    + assert (Hf : Delete_sections uri !! n = Some f).
      { rewrite <- (Nat.add_0_r n), <- lookup_drop, Hdrop. reflexivity. }
      rewrite (drop_S _ _ _ Hf) in Hdrop. injection Hdrop as <-.
      rewrite <- (Delete_progress_S _ _ _ _ Hf).
      eapply Forall_impl; [exact (IH (S n))|].
      intros o (k & Hk & Ho). exists k. split; [lia | done].
  - constructor; [exists n; split; [lia | done] | apply IH].
Qed.

(** The found flags of [race] are those of the pairs of [race_results]. *)
Lemma race_flags uri schedule :
  ∀ pending c,
    race uri schedule pending c
    = (λ o, (fst o, result_found (snd o))) <$> race_results uri schedule pending c.
Proof.
  induction schedule as [|ev schedule IH]; intros pending c; [done|].
  destruct ev as [|g]; simpl.
  - destruct pending; apply IH.
  - rewrite IH. by destruct g.
Qed.

(** C8 (amended).  [Delete] removes the entry of [uri] from the six maps
    one critical section at a time.  Between two sections the maps already
    visited have dropped the entry and the others still return it, value
    and found flag, so a racing reader may see such a state; each single
    getter call returns the very pair it returned before the delete or the
    zero value with not-found, and once the delete has run all six sections
    every getter returns not-found. *)
Theorem Delete_race_observations uri c :
  (∀ (n : nat) g,
      call g uri (Delete_progress uri n c)
      = if bool_decide (section_index g < n)%nat then not_found g else call g uri c)
  ∧ (∀ n : nat, (6 ≤ n)%nat → Delete_progress uri n c = Delete uri c)
  ∧ (∀ schedule g res,
       (g, res) ∈ race_results uri schedule (Delete_sections uri) c →
       res = not_found g ∨ res = call g uri c)
  ∧ (∀ schedule g res,
       (g, res) ∈ race_results uri (replicate 6 Deleter_section ++ schedule)
                    (Delete_sections uri) c →
       res = not_found g)
  ∧ (∀ schedule,
       race uri schedule (Delete_sections uri) c
       = (λ o, (fst o, result_found (snd o)))
           <$> race_results uri schedule (Delete_sections uri) c)
  ∧ (∀ (n : nat) g,
      found g uri (Delete_progress uri n c)
      = if bool_decide (section_index g < n)%nat then false else found g uri c)
  ∧ (∀ schedule g b,
       (g, b) ∈ race uri schedule (Delete_sections uri) c →
       b = false ∨ b = found g uri c)
  ∧ (∀ schedule g b,
       (g, b) ∈ race uri (replicate 6 Deleter_section ++ schedule)
                     (Delete_sections uri) c →
       b = false).
Proof.
  split; [intros n g; apply Delete_progress_call|].
  split; [intros n; apply Delete_progress_done|].
  split.
  { intros schedule g res Hin.
    pose proof (race_results_progress uri c schedule 0) as Hall.
    rewrite Forall_forall in Hall. apply Hall in Hin as (k & _ & Hres).
    simpl in Hres. rewrite Hres, Delete_progress_call. case_bool_decide; auto. }
  split.
  { intros schedule g res Hin.
    pose proof (race_results_progress uri c schedule 6) as Hall.
    rewrite Forall_forall in Hall.
    change (race_results uri (replicate 6 Deleter_section ++ schedule)
              (Delete_sections uri) c)
      with (race_results uri schedule (drop 6 (Delete_sections uri))
              (Delete_progress uri 6 c)) in Hin.
    apply Hall in Hin as (k & Hk & Hres). simpl in Hres.
    rewrite Hres, Delete_progress_call. rewrite bool_decide_eq_true_2; [done|].
    destruct g; simpl; lia. }
  split; [intros schedule; apply race_flags|].
  split; [intros n g; apply Delete_progress_found|].
  split.
  - intros schedule g b Hin.
    pose proof (race_reads_progress uri c schedule 0) as Hall.
    rewrite Forall_forall in Hall. apply Hall in Hin as (k & _ & Hb).
    simpl in Hb. rewrite Hb, Delete_progress_found. case_bool_decide; auto.
  - intros schedule g b Hin.
    pose proof (race_reads_progress uri c schedule 6) as Hall.
    rewrite Forall_forall in Hall.
    change (race uri (replicate 6 Deleter_section ++ schedule) (Delete_sections uri) c)
      with (race uri schedule (drop 6 (Delete_sections uri)) (Delete_progress uri 6 c))
      in Hin.
    apply Hall in Hin as (k & Hk & Hb). simpl in Hb.
    rewrite Hb, Delete_progress_found. rewrite bool_decide_eq_true_2; [done|].
    destruct g; simpl; lia.
Qed.

End CacheFacts.

(** ** Instances on concrete caches *)

Lemma GetAllDiagnosticsForURI_precedence_witness :
  GetAllDiagnosticsForURI "a.rego" cache_ab = [1%nat]
  ∧ GetAllDiagnosticsForURI "a.rego" cache_parsed = [2%nat; 5%nat; 3%nat].
Proof.
  split.
  - apply (proj1 (GetAllDiagnosticsForURI_precedence cache_ab "a.rego"));
      [vm_compute; reflexivity | discriminate].
  - rewrite (proj2 (GetAllDiagnosticsForURI_precedence cache_parsed "a.rego"));
      [vm_compute; reflexivity | right; vm_compute; reflexivity].
Defined.

Lemma GetAllDiagnosticsForURI_absent_witness :
  GetAllDiagnosticsForURI "c.rego" cache_ab = []
  ∧ GetAllDiagnosticsForURI "c.rego" (SetFileDiagnostics "c.rego" [] cache_ab) = [].
Proof.
  pose proof (GetAllDiagnosticsForURI_absent cache_ab "c.rego") as H.
  destruct H as (H1 & _ & H3 & _); [vm_compute; reflexivity ..|].
  split; [exact H1 | exact H3].
Defined.

Lemma found_flag_distinguishes_witness :
  GetFileDiagnostics "a.rego"
    (run disk_a [OpSetParseErrors "a.rego" [1%nat]; OpSetFileDiagnostics "b.rego" [];
                 OpDelete "b.rego"] (NewCache (Diagnostic := nat) (ast_Module := unit)
                                              (BuiltinPosition := unit)))
  = ([], false).
Proof.
  apply (proj1 (proj2 (proj2 (found_flag_distinguishes disk_a "a.rego")))).
  vm_compute; reflexivity.
Defined.

Lemma Clear_resets_one_map_witness :
  ∃ uri, snd (GetParseErrors uri (exec disk_a (OpDelete "a.rego") cache_ab)) = true.
Proof.
  destruct (Clear_resets_one_map disk_a cache_ab) as (_ & _ & _ & _ & _ & H).
  apply (H (OpDelete "a.rego") "a.rego" "b.rego");
    [discriminate | vm_compute; eauto | vm_compute; eauto].
Defined.

(** C7, as stated, fails for the parse-failure map: a clear for it would be
    a call after which no identifier has a parse-error entry, whatever the
    cache held; the cache has no such call. *)
Lemma parse_errors_have_no_clear :
  ¬ ∃ op : Op nat unit unit,
      ∀ (c : Cache nat unit unit) (uri : string),
        snd (GetParseErrors uri (exec disk_a op c)) = false.
Proof.
  intros [op Hclear].
  destruct (exec_keeps_a_parse_entry disk_a op cache_ab "a.rego" "b.rego")
    as [uri Huri]; [discriminate | vm_compute; eauto | vm_compute; eauto |].
  rewrite Hclear in Huri. discriminate.
Qed.

Lemma UpdateCacheForURIFromDisk_content_witness :
  UpdateCacheForURIFromDisk disk_a "a.rego" "/w/a.rego" cache_ab
  = (("package a", None), cache_ab).
Proof.
  pose proof (UpdateCacheForURIFromDisk_content disk_a "a.rego" "/w/a.rego" cache_ab
                "package a" eq_refl) as (Hret & Hsame & _).
  rewrite (surjective_pairing (UpdateCacheForURIFromDisk _ _ _ _)).
  rewrite Hret, Hsame; [reflexivity | vm_compute; reflexivity].
Defined.

(** C4, as stated, fails on the change signal: the value returned is the
    content read in both cases, so no function of the returned pair tells
    a call that left the cache unchanged from one that overwrote it. *)
Lemma UpdateCacheForURIFromDisk_no_change_signal :
  ¬ ∃ unchanged : string * option (error unit) → bool,
      ∀ c : Cache nat unit unit,
        unchanged (fst (UpdateCacheForURIFromDisk disk_a "a.rego" "/w/a.rego" c)) = true
        ↔ snd (UpdateCacheForURIFromDisk disk_a "a.rego" "/w/a.rego" c) = c.
Proof.
  intros [unchanged Hsignal].
  pose proof (proj2 (Hsignal cache_ab)) as Hsame.
  pose proof (proj1 (Hsignal NewCache)) as Hnew.
  assert (Hret : unchanged ("package a", None) = true).
  { apply Hsame. vm_compute. reflexivity. }
  specialize (Hnew Hret).
  apply (f_equal (λ c, fileContents c !! "a.rego")) in Hnew.
  vm_compute in Hnew. discriminate.
Qed.

Lemma Delete_race_observations_witness :
  call OfFileDiagnostics "a.rego" (Delete_progress "a.rego" 1 cache_ab)
  = FileDiagnosticsResult ([3%nat], true)
  ∧ ((OfParseErrors, @ParseErrorsResult nat unit unit ([1%nat], true)) ∈
       race_results "a.rego" [Deleter_section; Reader_get OfParseErrors]
         (Delete_sections "a.rego") cache_ab →
     @ParseErrorsResult nat unit unit ([1%nat], true) = not_found OfParseErrors
     ∨ @ParseErrorsResult nat unit unit ([1%nat], true) = call OfParseErrors "a.rego" cache_ab).
Proof.
  destruct (Delete_race_observations "a.rego" cache_ab) as (Hprefix & _ & Hread & _).
  split.
  - rewrite Hprefix. vm_compute. reflexivity.
  - apply (Hread [Deleter_section; Reader_get OfParseErrors] OfParseErrors
             (@ParseErrorsResult nat unit unit ([1%nat], true))).
Defined.

(** C8, as stated, fails: with the deleting goroutine between its first
    and second critical section, a reader misses the content of [a.rego]
    and then still finds its module. *)
Lemma Delete_race_partial :
  race "a.rego" [Deleter_section; Reader_get OfFileContents; Reader_get OfModule]
    (Delete_sections "a.rego") cache_ab
  = [(OfFileContents, false); (OfModule, true)]
  ∧ atomic_history
      (race "a.rego" [Deleter_section; Reader_get OfFileContents; Reader_get OfModule]
         (Delete_sections "a.rego") cache_ab) = false.
Proof. split; vm_compute; reflexivity. Qed.

(** * Properties of the missing-metadata report *)

Section MissingMetadataFacts.

Context (docs_url : string).

Implicit Types (state : list AggregateContribution).
Implicit Types (c : AggregateContribution).

Lemma existsb_elem_of {A} (f : A → bool) (l : list A) :
  existsb f l = true ↔ ∃ x, x ∈ l ∧ f x = true.
Proof.
  rewrite existsb_exists. split; intros (x & Hx & Hf); exists x;
    (split; [by apply list_elem_of_In | done]).
Qed.

Lemma forallb_elem_of {A} (f : A → bool) (l : list A) :
  forallb f l = true ↔ ∀ x, x ∈ l → f x = true.
Proof.
  rewrite forallb_forall. split; intros H x Hx; apply H; by apply list_elem_of_In.
Qed.

(** Two lists with the same elements give the same answers. *)
Lemma existsb_same_elements {A} (f : A → bool) (l l' : list A) :
  (∀ x, x ∈ l ↔ x ∈ l') → existsb f l = existsb f l'.
Proof.
  intros Hsame. apply eq_true_iff_eq. rewrite !existsb_elem_of.
  split; intros (x & Hx & Hf); exists x; (split; [by apply Hsame | done]).
Qed.

Lemma forallb_same_elements {A} (f : A → bool) (l l' : list A) :
  (∀ x, x ∈ l ↔ x ∈ l') → forallb f l = forallb f l'.
Proof.
  intros Hsame. apply eq_true_iff_eq. rewrite !forallb_elem_of.
  split; intros H x Hx; apply H; by apply Hsame.
Qed.

Lemma omap_same_elements {A B} (f g : A → option B) (l l' : list A) :
  (∀ x, f x = g x) → (∀ x, x ∈ l ↔ x ∈ l') →
  ∀ y, y ∈ omap f l ↔ y ∈ omap g l'.
Proof.
  intros Hfg Hsame y. rewrite !list_elem_of_omap.
  split; intros (x & Hx & Hy); exists x; (split; [by apply Hsame | congruence]).
Qed.

Lemma omap_all_None {A B} (f : A → option B) (l : list A) :
  (∀ x, x ∈ l → f x = None) → omap f l = [].
Proof.
  induction l as [|x l IH]; intros Hnone; [done|].
  simpl. rewrite (Hnone x) by left. apply IH. intros y Hy. apply Hnone. by right.
Qed.

Lemma leb_refl (s : string) : String.leb s s = true.
Proof. by destruct (String.leb_total s s). Qed.

Lemma package_contributors_same state state' p :
  (∀ c, c ∈ state ↔ c ∈ state') →
  ∀ c, c ∈ package_contributors state p ↔ c ∈ package_contributors state' p.
Proof.
  intros Hsame c. unfold package_contributors.
  rewrite !list_elem_of_filter. by rewrite Hsame.
Qed.

Lemma rule_contributions_elem state file r :
  (file, r) ∈ rule_contributions state
  ↔ ∃ c, c ∈ state ∧ file = source_file c ∧ r ∈ rules c.
Proof.
  unfold rule_contributions. rewrite list_elem_of_bind. split.
  - intros (c & Hfr & Hc). apply list_elem_of_fmap in Hfr as (r' & Heq & Hr').
    injection Heq as -> ->. eauto.
  - intros (c & Hc & -> & Hr). exists c. split; [|done].
    apply list_elem_of_fmap. eauto.
Qed.

Lemma rule_contributions_same state state' :
  (∀ c, c ∈ state ↔ c ∈ state') →
  ∀ fr, fr ∈ rule_contributions state ↔ fr ∈ rule_contributions state'.
Proof.
  intros Hsame [file r]. rewrite !rule_contributions_elem.
  split; intros (c & Hc & Hrest); exists c; (split; [by apply Hsame | done]).
Qed.

Lemma rule_contributors_same state state' p :
  (∀ c, c ∈ state ↔ c ∈ state') →
  ∀ fr, fr ∈ rule_contributors state p ↔ fr ∈ rule_contributors state' p.
Proof.
  intros Hsame fr. unfold rule_contributors.
  rewrite !list_elem_of_filter. by rewrite (rule_contributions_same _ _ Hsame).
Qed.

Lemma fmap_same_elements {A B} (f : A → B) (l l' : list A) :
  (∀ x, x ∈ l ↔ x ∈ l') → ∀ y, y ∈ f <$> l ↔ y ∈ f <$> l'.
Proof.
  intros Hsame y. rewrite !list_elem_of_fmap.
  split; intros (x & Hy & Hx); exists x; (split; [done | by apply Hsame]).
Qed.

Lemma findings_same state state' :
  (∀ c, c ∈ state ↔ c ∈ state') →
  ∀ f, f ∈ findings state ↔ f ∈ findings state'.
Proof.
  intros Hsame f. unfold findings. rewrite !elem_of_app.
  assert (Hpkg : f ∈ package_findings state ↔ f ∈ package_findings state');
    [apply omap_same_elements | ].
  3: assert (Hrule : f ∈ rule_findings state ↔ f ∈ rule_findings state');
    [apply omap_same_elements | by rewrite Hpkg, Hrule].
  - intros c. unfold package_finding, package_documented.
    rewrite (existsb_same_elements _ _ _ (package_contributors_same _ _ _ Hsame)).
    unfold smallest_file.
    by rewrite (forallb_same_elements _ _ _
                  (fmap_same_elements _ _ _ (package_contributors_same _ _ _ Hsame))).
  - done.
  - intros fr. unfold rule_finding, rule_documented.
    rewrite (existsb_same_elements _ _ _ (rule_contributors_same _ _ _ Hsame)).
    unfold smallest_file.
    by rewrite (forallb_same_elements _ _ _
                  (fmap_same_elements _ _ _ (rule_contributors_same _ _ _ Hsame))).
  - by apply rule_contributions_same.
Qed.

(** C5. The diagnostic set of [aggregate_report] is a function of the set
    of contributions alone: two enumerations of the same AggregateState, in
    any order and with any repetition, yield the same set of violations. *)
Theorem aggregate_report_deterministic state state' :
  (∀ c, c ∈ state ↔ c ∈ state') →
  ∀ v, v ∈ aggregate_report docs_url state ↔ v ∈ aggregate_report docs_url state'.
Proof.
  intros Hsame v. unfold aggregate_report.
  by apply fmap_same_elements, findings_same.
Qed.

(** A finding about a package comes from an undocumented package. *)
Lemma package_findings_undocumented state f :
  f ∈ package_findings state →
  ∃ c, c ∈ state
       ∧ subject f = OfPackage (package_path c)
       ∧ package_documented state (package_path c) = false.
Proof.
  unfold package_findings. rewrite list_elem_of_omap.
  intros (c & Hc & Hf). exists c. split; [done|]. unfold package_finding in Hf.
  destruct (package_documented state (package_path c)); simpl in Hf; [done|].
  destruct (smallest_file _ _); [|done]. by injection Hf as <-.
Qed.

Lemma rule_findings_subject state f :
  f ∈ rule_findings state → ∃ p, subject f = OfRule p.
Proof.
  unfold rule_findings. rewrite list_elem_of_omap.
  intros (fr & _ & Hf). unfold rule_finding in Hf.
  destruct (negb _ && _); [|done]. injection Hf as <-. eauto.
Qed.

(** C3. A package that one contributing file shows annotated is documented,
    even when another contributing file shows it bare: the report has no
    finding about it, and for two such files on their own the report is
    empty, in either order. *)
Theorem package_annotation_is_unioned state F1 F2 :
  F1 ∈ state →
  F2 ∈ state →
  package_path F1 = package_path F2 →
  package_annotated F1 = true →
  package_annotated F2 = false →
  package_documented state (package_path F2) = true
  ∧ (∀ f, f ∈ findings state → subject f ≠ OfPackage (package_path F2))
  ∧ (rules F1 = [] → rules F2 = [] →
     aggregate_report docs_url [F1; F2] = []
     ∧ aggregate_report docs_url [F2; F1] = []).
Proof.
  intros H1 H2 Hpath Hann1 Hann2.
  assert (Hdoc : ∀ st, F1 ∈ st → package_documented st (package_path F2) = true).
  { intros st Hst. unfold package_documented. apply existsb_elem_of.
    exists F1. split; [|done].
    unfold package_contributors. by apply list_elem_of_filter. }
  split; [by apply Hdoc|]. split.
  - intros f Hf Hsubj. unfold findings in Hf. apply elem_of_app in Hf as [Hf|Hf].
    + apply package_findings_undocumented in Hf as (c & Hc & Hs & Hundoc).
      rewrite Hs in Hsubj. injection Hsubj as Hp.
      rewrite Hp, (Hdoc state H1) in Hundoc. discriminate.
    + apply rule_findings_subject in Hf as [p Hp]. congruence.
  - intros Hr1 Hr2.
    assert (Hempty : ∀ st, F1 ∈ st → (∀ c, c ∈ st → c = F1 ∨ c = F2) →
              aggregate_report docs_url st = []).
    { intros st Hst Hall. unfold aggregate_report, findings, package_findings, rule_findings.
      rewrite (omap_all_None _ st), (omap_all_None _ (rule_contributions st)); [done| |].
      - intros [file r] Hfr. apply rule_contributions_elem in Hfr as (c & Hc & _ & Hr).
        destruct (Hall c Hc) as [-> | ->]; [rewrite Hr1 in Hr | rewrite Hr2 in Hr];
          by apply not_elem_of_nil in Hr.
      - intros c Hc.
        assert (Hp : package_path c = package_path F2)
          by (destruct (Hall c Hc) as [-> | ->]; done).
        unfold package_finding. by rewrite Hp, (Hdoc st Hst). }
    assert (Hboth : ∀ a b c : AggregateContribution, c ∈ [a; b] → c = a ∨ c = b).
    { intros a b c Hc. apply elem_of_cons in Hc as [-> | Hc]; [by left|].
      apply list_elem_of_singleton in Hc. by right. }
    split; apply Hempty.
    + apply elem_of_cons. by left.
    + apply Hboth.
    + apply elem_of_cons. right. apply elem_of_cons. by left.
    + intros c Hc. destruct (Hboth _ _ _ Hc); auto.
Qed.

(** *** The findings about one rule *)

Lemma leb_le (a b : string) :
  String.leb a b = true ↔ a = b ∨ OrderedTypeEx.String_as_OT.lt a b.
Proof.
  unfold String.leb. destruct (String.compare a b) eqn:Hcmp.
  - split; [|done]. intros _. left. by apply String.compare_eq_iff.
  - split; [|done]. intros _. right. by apply OrderedTypeEx.String_as_OT.cmp_lt.
  - split; [done|]. intros [-> | Hlt].
    + assert (String.compare b b = Eq) by by apply OrderedTypeEx.String_as_OT.cmp_eq.
      congruence.
    + apply OrderedTypeEx.String_as_OT.cmp_lt in Hlt.
      unfold OrderedTypeEx.String_as_OT.cmp in Hlt. congruence.
Qed.

Lemma leb_trans (a b d : string) :
  String.leb a b = true → String.leb b d = true → String.leb a d = true.
Proof.
  rewrite !leb_le. intros [-> | Hab] [-> | Hbd]; auto.
  right. by eapply OrderedTypeEx.String_as_OT.lt_trans.
Qed.

(** A non-empty list of file identifiers has a smallest one. *)
Lemma smallest_file_exists (files : list string) :
  files ≠ [] → ∃ f, f ∈ files ∧ smallest_file files f = true.
Proof.
  unfold smallest_file. induction files as [|f files IH]; [done|]. intros _.
  destruct files as [|f' files].
  - exists f. split; [left|]. simpl. by rewrite leb_refl.
  - destruct IH as (m & Hm & Hmin); [done|].
    pose proof (proj1 (forallb_elem_of _ _) Hmin) as Hle.
    destruct (String.leb_total f m) as [Hfm | Hmf].
    + exists f. split; [left|]. apply forallb_elem_of. intros x Hx.
      apply elem_of_cons in Hx as [-> | Hx]; [apply leb_refl|].
      apply (leb_trans _ m); [done | by apply Hle].
    + exists m. split; [by right|]. apply forallb_elem_of. intros x Hx.
      apply elem_of_cons in Hx as [-> | Hx]; [done | by apply Hle].
Qed.

Lemma rule_finding_Some state fr f :
  rule_finding state fr = Some f →
  f = {| subject := OfRule (rule_path (snd fr));
         finding_file := fst fr;
         finding_location := rule_location (snd fr) |}
  ∧ rule_documented state (rule_path (snd fr)) = false
  ∧ smallest_file (fst <$> rule_contributors state (rule_path (snd fr))) (fst fr) = true.
Proof.
  unfold rule_finding.
  destruct (rule_documented state (rule_path (snd fr))); simpl; [done|].
  destruct (smallest_file _ _); [|done]. intros Hf. by injection Hf as <-.
Qed.

Lemma filter_none {A} (P : A → Prop) `{∀ x, Decision (P x)} (l : list A) :
  (∀ x, x ∈ l → ¬ P x) → filter P l = [].
Proof.
  induction l as [|x l IH]; intros Hnone; [done|].
  rewrite filter_cons. rewrite decide_False by (apply Hnone; left).
  apply IH. intros y Hy. apply Hnone. by right.
Qed.

Lemma omap_cons {A B} (g : A → option B) (x : A) (l : list A) :
  omap g (x :: l) = match g x with Some y => y :: omap g l | None => omap g l end.
Proof. reflexivity. Qed.

Lemma omap_filter_None {A B} (g : A → option B) (P : A → Prop)
    `{∀ x, Decision (P x)} (l : list A) :
  (∀ x, x ∈ l → ¬ P x → g x = None) → omap g l = omap g (filter P l).
Proof.
  induction l as [|x l IH]; intros Hnone; [done|].
  assert (IHl : omap g l = omap g (filter P l)).
  { apply IH. intros y Hy. apply Hnone. by right. }
  rewrite filter_cons. destruct (decide (P x)) as [HP | HP].
  - by rewrite !omap_cons, IHl.
  - rewrite omap_cons, (Hnone x) by (done || left). exact IHl.
Qed.

(** The rule findings about one path are the findings of its contributors. *)
Lemma rule_findings_about state p (l : list (string * RuleFact)) :
  filter (λ f, subject f = OfRule p) (omap (rule_finding state) l)
  = omap (rule_finding state) (filter (λ fr, rule_path (snd fr) = p) l).
Proof.
  induction l as [|fr l IH]; [done|].
  rewrite omap_cons, (filter_cons _ fr l).
  destruct (rule_finding state fr) as [f|] eqn:Hf.
  - destruct (rule_finding_Some _ _ _ Hf) as (Hrec & _).
    rewrite filter_cons.
    destruct (decide (rule_path (snd fr) = p)) as [Hp | Hp].
    + rewrite decide_True by (rewrite Hrec; simpl; congruence).
      by rewrite omap_cons, Hf, IH.
    + rewrite decide_False by (rewrite Hrec; simpl; congruence). exact IH.
  - destruct (decide (rule_path (snd fr) = p)); [rewrite omap_cons, Hf|]; exact IH.
Qed.

Lemma package_findings_subject state f :
  f ∈ package_findings state → ∃ p, subject f = OfPackage p.
Proof.
  intros Hf. apply package_findings_undocumented in Hf as (c & _ & Hs & _). eauto.
Qed.

(** C6. A rule that no contribution shows annotated is reported at its own
    head: every finding about it carries the file and the head location of
    one of its contributions, the one from the smallest file identifier,
    and there is such a finding.  When the rule has a single contribution,
    from file [c], the report holds exactly one diagnostic about it, with
    the file of [c] and the row, column and text of the rule head; this
    does not depend on the package being annotated.  A documented package
    gets no finding, and when everything else in the state is documented
    the report is that one diagnostic. *)
Theorem undocumented_rule_reported state c r :
  c ∈ state →
  r ∈ rules c →
  rule_documented state (rule_path r) = false →
  let about_rule := λ f, subject f = OfRule (rule_path r) in
  let diagnostic :=
    {| category := "custom";
       description := "Package or rule missing metadata";
       level := "error";
       location_file := source_file c;
       location := rule_location r;
       related_resources := [("documentation", docs_url)];
       title := "missing-metadata" |} in
  (∀ f, f ∈ findings state → about_rule f →
     ∃ fr, fr ∈ rule_contributors state (rule_path r)
           ∧ finding_file f = fst fr
           ∧ finding_location f = rule_location (snd fr)
           ∧ ∀ fr', fr' ∈ rule_contributors state (rule_path r) →
                    String.leb (fst fr) (fst fr') = true)
  ∧ (∃ f, f ∈ findings state ∧ about_rule f)
  ∧ (rule_contributors state (rule_path r) = [(source_file c, r)] →
     filter about_rule (findings state)
     = [ {| subject := OfRule (rule_path r);
            finding_file := source_file c;
            finding_location := rule_location r |} ]
     ∧ to_violation docs_url <$> filter about_rule (findings state) = [diagnostic]
     ∧ diagnostic ∈ aggregate_report docs_url state)
  ∧ (package_documented state (package_path c) = true →
     ∀ f, f ∈ findings state → subject f ≠ OfPackage (package_path c))
  ∧ (rule_contributors state (rule_path r) = [(source_file c, r)] →
     (∀ c', c' ∈ state → package_documented state (package_path c') = true) →
     (∀ fr, fr ∈ rule_contributions state →
            rule_path (snd fr) ≠ rule_path r →
            rule_documented state (rule_path (snd fr)) = true) →
     aggregate_report docs_url state = [diagnostic]).
Proof.
  intros Hc Hr Hundoc about_rule diagnostic.
  assert (Hmine : (source_file c, r) ∈ rule_contributors state (rule_path r)).
  { unfold rule_contributors. apply list_elem_of_filter. split; [done|].
    apply rule_contributions_elem. eauto. }
  assert (Hone : rule_contributors state (rule_path r) = [(source_file c, r)] →
            omap (rule_finding state) (rule_contributors state (rule_path r))
            = [ {| subject := OfRule (rule_path r);
                   finding_file := source_file c;
                   finding_location := rule_location r |} ]).
  { intros Hsingle. rewrite Hsingle. simpl. unfold rule_finding. simpl.
    rewrite Hundoc, Hsingle. simpl. by rewrite leb_refl. }
  assert (Hfilter : filter about_rule (findings state)
            = omap (rule_finding state) (rule_contributors state (rule_path r))).
  { unfold findings. rewrite filter_app.
    rewrite (filter_none about_rule (package_findings state)).
    - apply rule_findings_about.
    - intros f Hf Habout. apply package_findings_subject in Hf as [p Hp].
      unfold about_rule in Habout. congruence. }
  split; [|split; [|split; [|split]]].
  - intros f Hf Habout.
    assert (Hin : f ∈ filter about_rule (findings state))
      by by apply list_elem_of_filter.
    rewrite Hfilter in Hin. apply list_elem_of_omap in Hin as (fr & Hfr & Hsome).
    destruct (rule_finding_Some _ _ _ Hsome) as (-> & _ & Hsmall).
    assert (Hp : rule_path (snd fr) = rule_path r).
    { unfold rule_contributors in Hfr. by apply list_elem_of_filter in Hfr as [? _]. }
    exists fr. rewrite Hp in Hsmall. repeat split; [done|].
    intros fr' Hfr'. unfold smallest_file in Hsmall.
    apply (proj1 (forallb_elem_of _ _) Hsmall). by apply list_elem_of_fmap_2.
  - destruct (smallest_file_exists (fst <$> rule_contributors state (rule_path r)))
      as (file & Hfile & Hsmall).
    { intros Hnil. apply fmap_nil_inv in Hnil. rewrite Hnil in Hmine.
      by apply not_elem_of_nil in Hmine. }
    apply list_elem_of_fmap in Hfile as (fr & -> & Hfr).
    assert (Hp : rule_path (snd fr) = rule_path r).
    { unfold rule_contributors in Hfr. by apply list_elem_of_filter in Hfr as [? _]. }
    exists {| subject := OfRule (rule_path (snd fr));
              finding_file := fst fr;
              finding_location := rule_location (snd fr) |}.
    split; [|unfold about_rule; simpl; by rewrite Hp].
    unfold findings. apply elem_of_app. right.
    unfold rule_findings. apply list_elem_of_omap. exists fr. split.
    + unfold rule_contributors in Hfr. by apply list_elem_of_filter in Hfr as [_ ?].
    + unfold rule_finding. by rewrite Hp, Hundoc, Hsmall.
  - intros Hsingle. rewrite Hfilter, (Hone Hsingle). split; [done|]. split; [done|].
    unfold aggregate_report. apply list_elem_of_fmap.
    exists {| subject := OfRule (rule_path r);
              finding_file := source_file c;
              finding_location := rule_location r |}.
    split; [done|].
    assert (Hin : {| subject := OfRule (rule_path r);
                     finding_file := source_file c;
                     finding_location := rule_location r |}
                  ∈ filter about_rule (findings state)).
    { rewrite Hfilter, (Hone Hsingle). left. }
    by apply list_elem_of_filter in Hin as [_ ?].
  - intros Hdoc f Hf Hsubj. unfold findings in Hf. apply elem_of_app in Hf as [Hf | Hf].
    + apply package_findings_undocumented in Hf as (c' & _ & Hs & Hbare).
      rewrite Hs in Hsubj. injection Hsubj as Hp. rewrite Hp in Hbare. congruence.
    + apply rule_findings_subject in Hf as [p Hp]. congruence.
  - intros Hsingle Hpackages Hrules.
    unfold aggregate_report, findings, package_findings, rule_findings.
    rewrite (omap_all_None _ state).
    2: { intros c' Hc'. unfold package_finding. by rewrite (Hpackages c' Hc'). }
    rewrite (omap_filter_None (rule_finding state)
               (λ fr, rule_path (snd fr) = rule_path r)).
    2: { intros fr Hfr Hp. unfold rule_finding. by rewrite (Hrules fr Hfr Hp). }
    fold (rule_contributors state (rule_path r)). by rewrite (Hone Hsingle).
Qed.

End MissingMetadataFacts.

(** ** The rule's tests, replayed on the model *)

Example test_success_not_missing_package_metadata_report :
  aggregate_report "docs" [agg_package_annotated] = [].
Proof. vm_compute. reflexivity. Qed.

Example test_fail_missing_package_metadata_report :
  aggregate_report "docs" [agg_package_only]
  = [violation_at "docs" "p.rego" (mkLocation 1 1 "package")].
Proof. vm_compute. reflexivity. Qed.

Example test_success_one_missing_one_found_package_metadata_report :
  aggregate_report "docs" [agg_package_only; agg_package_annotated] = [].
Proof. vm_compute. reflexivity. Qed.

Example test_success_not_missing_rule_metadata_report :
  aggregate_report "docs" [agg_rule_annotated] = [].
Proof. vm_compute. reflexivity. Qed.

Example test_fail_missing_rule_metadata_report :
  aggregate_report "docs" [agg_rule_missing]
  = [violation_at "docs" "p.rego" (mkLocation 5 1 "baz := true")].
Proof. vm_compute. reflexivity. Qed.

Example test_success_one_missing_one_found_rule_metadata_report :
  aggregate_report "docs" [agg_rule_bare_in_first; agg_rule_annotated_in_second] = [].
Proof. vm_compute. reflexivity. Qed.

(** ** Instances on concrete states *)

Lemma aggregate_report_deterministic_witness :
  violation_at "docs" "q.rego" (mkLocation 1 1 "package")
    ∈ aggregate_report "docs" [agg_rule_missing; agg_other_package]
  ↔ violation_at "docs" "q.rego" (mkLocation 1 1 "package")
    ∈ aggregate_report "docs" [agg_other_package; agg_rule_missing; agg_other_package].
Proof.
  apply (aggregate_report_deterministic "docs"
           [agg_rule_missing; agg_other_package]
           [agg_other_package; agg_rule_missing; agg_other_package]).
  intros c. rewrite !elem_of_cons. pose proof (not_elem_of_nil c). tauto.
Defined.

Lemma package_annotation_is_unioned_witness :
  aggregate_report "docs" [agg_package_annotated; agg_package_only] = []
  ∧ aggregate_report "docs" [agg_package_only; agg_package_annotated] = [].
Proof.
  apply (package_annotation_is_unioned "docs"
           [agg_package_annotated; agg_package_only]
           agg_package_annotated agg_package_only);
    [left | right; left | reflexivity ..].
Defined.

Lemma undocumented_rule_reported_witness :
  aggregate_report "docs" [agg_rule_missing]
  = [ {| category := "custom";
         description := "Package or rule missing metadata";
         level := "error";
         location_file := "p.rego";
         location := mkLocation 5 1 "baz := true";
         related_resources := [("documentation", "docs")];
         title := "missing-metadata" |} ]
  ∧ {| category := "custom";
       description := "Package or rule missing metadata";
       level := "error";
       location_file := "p.rego";
       location := mkLocation 5 1 "baz := true";
       related_resources := [("documentation", "docs")];
       title := "missing-metadata" |}
    ∈ aggregate_report "docs" [agg_other_package; agg_rule_missing].
Proof.
  split.
  - assert (Hc : agg_rule_missing ∈ [agg_rule_missing]) by left.
    assert (Hr : mkRuleFact "foo.bar.baz" false (mkLocation 5 1 "baz := true")
                 ∈ rules agg_rule_missing) by left.
    destruct (undocumented_rule_reported "docs" [agg_rule_missing] agg_rule_missing
                (mkRuleFact "foo.bar.baz" false (mkLocation 5 1 "baz := true"))
                Hc Hr eq_refl) as (_ & _ & _ & _ & Hreport).
    apply Hreport.
    + reflexivity.
    + intros c' Hc'. apply list_elem_of_singleton in Hc'. subst c'. reflexivity.
    + intros fr Hfr Hp. apply list_elem_of_singleton in Hfr. subst fr. done.
  - assert (Hc : agg_rule_missing ∈ [agg_other_package; agg_rule_missing])
      by (right; left).
    assert (Hr : mkRuleFact "foo.bar.baz" false (mkLocation 5 1 "baz := true")
                 ∈ rules agg_rule_missing) by left.
    destruct (undocumented_rule_reported "docs" [agg_other_package; agg_rule_missing]
                agg_rule_missing
                (mkRuleFact "foo.bar.baz" false (mkLocation 5 1 "baz := true"))
                Hc Hr eq_refl) as (_ & _ & Hsingle & _).
    apply Hsingle. reflexivity.
Defined.

(** * Laws of the cache operations *)

Section CacheLaws.

Context {Diagnostic ast_Module BuiltinPosition os_error : Type}.
Context (os_ReadFile : string → string + os_error).

Implicit Types (c : Cache Diagnostic ast_Module BuiltinPosition).
Implicit Types (uri path : string).
Implicit Types (op : Op Diagnostic ast_Module BuiltinPosition).

Lemma map_index_insert {V} (zero v : V) (m : gmap string V) k k' :
  map_index zero (<[k := v]> m) k'
  = if String.eqb k k' then (v, true) else map_index zero m k'.
Proof.
  unfold map_index. destruct (String.eqb k k') eqn:Hk.
  - apply String.eqb_eq in Hk as ->. by rewrite lookup_insert_eq.
  - apply String.eqb_neq in Hk. by rewrite lookup_insert_ne.
Qed.

Lemma map_index_delete_ne {V} (zero : V) (m : gmap string V) k k' :
  k ≠ k' → map_index zero (delete k m) k' = map_index zero m k'.
Proof. intros Hk. unfold map_index. by rewrite lookup_delete_ne. Qed.

(** X1. Reading after a write: every getter returns, for the identifier just
    set, the value set with found true, and for any other identifier what
    it returned before the write. *)
Theorem Get_after_Set c uri uri' :
  (∀ content,
      GetFileContents uri' (SetFileContents uri content c)
      = if String.eqb uri uri' then (content, true) else GetFileContents uri' c)
  ∧ (∀ module,
      GetModule uri' (SetModule uri module c)
      = if String.eqb uri uri' then (module, true) else GetModule uri' c)
  ∧ (∀ diags,
      GetFileDiagnostics uri' (SetFileDiagnostics uri diags c)
      = if String.eqb uri uri' then (diags, true) else GetFileDiagnostics uri' c)
  ∧ (∀ diags,
      GetAggregateDiagnostics uri' (SetAggregateDiagnostics uri diags c)
      = if String.eqb uri uri' then (diags, true) else GetAggregateDiagnostics uri' c)
  ∧ (∀ diags,
      GetParseErrors uri' (SetParseErrors uri diags c)
      = if String.eqb uri uri' then (diags, true) else GetParseErrors uri' c)
  ∧ (∀ positions,
      GetBuiltinPositions uri' (SetBuiltinPositions uri positions c)
      = if String.eqb uri uri' then (positions, true) else GetBuiltinPositions uri' c).
Proof.
  unfold GetFileContents, GetModule, GetFileDiagnostics, GetAggregateDiagnostics,
    GetParseErrors, GetBuiltinPositions.
  repeat split; intros v; simpl; apply map_index_insert.
Qed.

(** X2. Writes to one identifier of one map: the last one wins. *)
Theorem Set_overwrites c uri :
  (∀ a b, SetFileContents uri b (SetFileContents uri a c) = SetFileContents uri b c)
  ∧ (∀ a b, SetModule uri b (SetModule uri a c) = SetModule uri b c)
  ∧ (∀ a b, SetFileDiagnostics uri b (SetFileDiagnostics uri a c)
            = SetFileDiagnostics uri b c)
  ∧ (∀ a b, SetAggregateDiagnostics uri b (SetAggregateDiagnostics uri a c)
            = SetAggregateDiagnostics uri b c)
  ∧ (∀ a b, SetParseErrors uri b (SetParseErrors uri a c) = SetParseErrors uri b c)
  ∧ (∀ a b, SetBuiltinPositions uri b (SetBuiltinPositions uri a c)
            = SetBuiltinPositions uri b c).
Proof.
  unfold SetFileContents, SetModule, SetFileDiagnostics, SetAggregateDiagnostics,
    SetParseErrors, SetBuiltinPositions.
  repeat split; intros a b; simpl; f_equal; apply insert_insert_eq.
Qed.

(** X3. Writes to two different identifiers of one map can be swapped. *)
Theorem Set_commutes c uri uri' :
  uri ≠ uri' →
  (∀ a b, SetFileContents uri a (SetFileContents uri' b c)
          = SetFileContents uri' b (SetFileContents uri a c))
  ∧ (∀ a b, SetModule uri a (SetModule uri' b c) = SetModule uri' b (SetModule uri a c))
  ∧ (∀ a b, SetFileDiagnostics uri a (SetFileDiagnostics uri' b c)
            = SetFileDiagnostics uri' b (SetFileDiagnostics uri a c))
  ∧ (∀ a b, SetAggregateDiagnostics uri a (SetAggregateDiagnostics uri' b c)
            = SetAggregateDiagnostics uri' b (SetAggregateDiagnostics uri a c))
  ∧ (∀ a b, SetParseErrors uri a (SetParseErrors uri' b c)
            = SetParseErrors uri' b (SetParseErrors uri a c))
  ∧ (∀ a b, SetBuiltinPositions uri a (SetBuiltinPositions uri' b c)
            = SetBuiltinPositions uri' b (SetBuiltinPositions uri a c)).
Proof.
  intros Hne.
  unfold SetFileContents, SetModule, SetFileDiagnostics, SetAggregateDiagnostics,
    SetParseErrors, SetBuiltinPositions.
  repeat split; intros a b; simpl; f_equal; by apply insert_insert_ne.
Qed.

(** X4. [Delete uri] leaves every other identifier as it was: each getter
    returns for [uri'] what it returned before. *)
Theorem Delete_other_identifier c uri uri' :
  uri ≠ uri' →
  GetFileContents uri' (Delete uri c) = GetFileContents uri' c
  ∧ GetModule uri' (Delete uri c) = GetModule uri' c
  ∧ GetFileDiagnostics uri' (Delete uri c) = GetFileDiagnostics uri' c
  ∧ GetAggregateDiagnostics uri' (Delete uri c) = GetAggregateDiagnostics uri' c
  ∧ GetParseErrors uri' (Delete uri c) = GetParseErrors uri' c
  ∧ GetBuiltinPositions uri' (Delete uri c) = GetBuiltinPositions uri' c
  ∧ GetAllDiagnosticsForURI uri' (Delete uri c) = GetAllDiagnosticsForURI uri' c.
Proof.
  intros Hne. rewrite Delete_fields.
  unfold GetAllDiagnosticsForURI, GetFileContents, GetModule, GetFileDiagnostics,
    GetAggregateDiagnostics, GetParseErrors, GetBuiltinPositions; simpl.
  rewrite !map_index_delete_ne by done. done.
Qed.

(** X5. Deleting an identifier the cache holds nothing for changes nothing. *)
Theorem Delete_absent c uri :
  fileContents c !! uri = None →
  modules c !! uri = None →
  diagnosticsFile c !! uri = None →
  diagnosticsAggregate c !! uri = None →
  diagnosticsParseErrors c !! uri = None →
  builtinPositionsFile c !! uri = None →
  Delete uri c = c.
Proof.
  intros H1 H2 H3 H4 H5 H6. rewrite Delete_fields. destruct c; simpl in *.
  f_equal; by apply delete_id.
Qed.

(** X6. Deleting twice is deleting once, and two deletes can be swapped. *)
Theorem Delete_idempotent_commutes c uri uri' :
  Delete uri (Delete uri c) = Delete uri c
  ∧ Delete uri (Delete uri' c) = Delete uri' (Delete uri c).
Proof.
  rewrite !Delete_fields. simpl. split; f_equal;
    first [apply delete_delete_eq | apply delete_delete].
Qed.

Lemma Delete_after_exec op c uri :
  writes_only uri op = true → Delete uri (exec os_ReadFile op c) = Delete uri c.
Proof.
  intros Hop. destruct op; simpl in Hop; try discriminate;
    apply String.eqb_eq in Hop as ->; simpl; rewrite !Delete_fields; simpl;
    try (f_equal; first [apply delete_insert_eq | apply delete_delete_eq]).
  unfold UpdateCacheForURIFromDisk.
  destruct (os_ReadFile path) as [content|err]; simpl; [|done].
  destruct (GetFileContents uri c) as [cached ok].
  destruct (ok && String.eqb cached content); simpl; [done|].
  f_equal. apply delete_insert_eq.
Qed.

(** X7. [Delete uri] erases whatever a history of calls on [uri] alone has
    built up: after any such history the delete leaves the cache that a
    delete before the history would have left; from a new cache, a new
    cache. *)
Theorem Delete_erases_history uri ops c :
  forallb (writes_only uri) ops = true →
  Delete uri (run os_ReadFile ops c) = Delete uri c
  ∧ Delete uri (run os_ReadFile ops NewCache) = NewCache.
Proof.
  intros Hops.
  assert (Hany : ∀ c0, Delete uri (run os_ReadFile ops c0) = Delete uri c0).
  { induction ops as [|op ops IH]; intros c0; [done|].
    simpl in Hops. apply andb_true_iff in Hops as [Hop Hops].
    simpl. rewrite (IH Hops). by apply Delete_after_exec. }
  split; [apply Hany|]. rewrite Hany, Delete_fields. unfold NewCache; simpl.
  by rewrite !delete_empty.
Qed.

(** *** Loading from disk *)

(** X8. A failed read leaves the cache as it was and returns the empty string
    with the wrapped error; any call leaves the five other maps and the
    content of every other identifier as they were, and removes no content
    entry. *)
Theorem UpdateCacheForURIFromDisk_footprint uri path c :
  let c' := snd (UpdateCacheForURIFromDisk os_ReadFile uri path c) in
  (∀ err, os_ReadFile path = inr err →
     UpdateCacheForURIFromDisk os_ReadFile uri path c
     = ((EmptyString, Some (Errorf "failed to read file: " err)), c))
  ∧ modules c' = modules c
  ∧ diagnosticsFile c' = diagnosticsFile c
  ∧ diagnosticsAggregate c' = diagnosticsAggregate c
  ∧ diagnosticsParseErrors c' = diagnosticsParseErrors c
  ∧ builtinPositionsFile c' = builtinPositionsFile c
  ∧ (∀ uri', uri' ≠ uri → GetFileContents uri' c' = GetFileContents uri' c)
  ∧ (∀ uri', snd (GetFileContents uri' c) = true → snd (GetFileContents uri' c') = true).
Proof.
  intros c'. split.
  { intros err Herr. unfold UpdateCacheForURIFromDisk. by rewrite Herr. }
  destruct (UpdateCacheForURIFromDisk_frame os_ReadFile uri path c)
    as (Hm & Hf & Ha & Hp & Hb).
  do 5 (split; [done|]).
  subst c'. unfold UpdateCacheForURIFromDisk, GetFileContents.
  destruct (os_ReadFile path) as [content|err]; simpl; [|done].
  destruct (map_index EmptyString (fileContents c) uri) as [cached ok].
  destruct (ok && String.eqb cached content); simpl; [done|].
  split.
  - intros uri' Hne. rewrite map_index_insert.
    destruct (String.eqb uri uri') eqn:Heq; [|done].
    apply String.eqb_eq in Heq. congruence.
  - intros uri' Hfound. rewrite map_index_insert.
    by destruct (String.eqb uri uri').
Qed.

Lemma UpdateCacheForURIFromDisk_cache uri path c content :
  os_ReadFile path = inl content →
  snd (UpdateCacheForURIFromDisk os_ReadFile uri path c) = SetFileContents uri content c.
Proof.
  intros Hread.
  unfold UpdateCacheForURIFromDisk, GetFileContents, map_index. rewrite Hread.
  destruct (fileContents c !! uri) as [cached|] eqn:Hc; simpl; [|done].
  destruct (String.eqb cached content) eqn:Heq; simpl; [|done].
  apply String.eqb_eq in Heq as ->.
  unfold SetFileContents. destruct c; simpl in *. f_equal.
  symmetry. by apply insert_id.
Qed.

(** X9. After a successful read the cache is the one [SetFileContents] would
    have left, whether or not the comparison with the cached content
    skipped the write; the getter then returns the content read. *)
Theorem UpdateCacheForURIFromDisk_as_SetFileContents uri path c content :
  os_ReadFile path = inl content →
  snd (UpdateCacheForURIFromDisk os_ReadFile uri path c)
  = SetFileContents uri content c
  ∧ GetFileContents uri (snd (UpdateCacheForURIFromDisk os_ReadFile uri path c))
    = (content, true).
Proof.
  intros Hread. rewrite (UpdateCacheForURIFromDisk_cache _ _ _ _ Hread).
  split; [done|]. unfold GetFileContents; simpl.
  apply map_index_Some, lookup_insert_eq.
Qed.

Lemma UpdateCacheForURIFromDisk_returns uri path c content :
  os_ReadFile path = inl content →
  fst (UpdateCacheForURIFromDisk os_ReadFile uri path c) = (content, None).
Proof.
  intros Hread. unfold UpdateCacheForURIFromDisk, GetFileContents, map_index.
  rewrite Hread. destruct (fileContents c !! uri) as [cached|]; simpl; [|done].
  destruct (String.eqb cached content) eqn:Heq; simpl; [|done].
  by apply String.eqb_eq in Heq as ->.
Qed.

(** X10. Loading the same file again, with the disk unchanged, returns the same
    result and leaves the cache of the first load. *)
Theorem UpdateCacheForURIFromDisk_idempotent uri path c :
  UpdateCacheForURIFromDisk os_ReadFile uri path
    (snd (UpdateCacheForURIFromDisk os_ReadFile uri path c))
  = UpdateCacheForURIFromDisk os_ReadFile uri path c.
Proof.
  destruct (os_ReadFile path) as [content|err] eqn:Hread.
  - pose proof (UpdateCacheForURIFromDisk_cache uri path c content Hread) as Hset.
    assert (Hget : GetFileContents uri
                     (snd (UpdateCacheForURIFromDisk os_ReadFile uri path c))
                   = (content, true)).
    { rewrite Hset. unfold GetFileContents; simpl.
      apply map_index_Some, lookup_insert_eq. }
    pose proof (UpdateCacheForURIFromDisk_returns uri path c content Hread) as Hret.
    rewrite (surjective_pairing (UpdateCacheForURIFromDisk os_ReadFile uri path c)).
    rewrite Hret. simpl.
    unfold UpdateCacheForURIFromDisk at 1. rewrite Hread, Hget. simpl.
    by rewrite String.eqb_refl.
  - unfold UpdateCacheForURIFromDisk. by rewrite Hread.
Qed.

(** *** The merged read *)

(** The merged read written out on the three entries of the identifier. *)
Lemma GetAllDiagnosticsForURI_entries c uri :
  GetAllDiagnosticsForURI uri c
  = match diagnosticsParseErrors c !! uri with
    | Some (d :: ds) => d :: ds
    | _ => default [] (diagnosticsAggregate c !! uri)
           ++ default [] (diagnosticsFile c !! uri)
    end.
Proof.
  unfold GetAllDiagnosticsForURI, GetParseErrors, GetAggregateDiagnostics,
    GetFileDiagnostics, map_index.
  destruct (diagnosticsParseErrors c !! uri) as [[|d ds]|]; simpl; try done;
    destruct (diagnosticsAggregate c !! uri) as [agg|];
    destruct (diagnosticsFile c !! uri) as [file|]; simpl;
    by rewrite ?app_nil_r.
Qed.

Lemma writes_diagnostics_frame op c uri :
  writes_diagnostics uri op = false →
  diagnosticsParseErrors (exec os_ReadFile op c) !! uri = diagnosticsParseErrors c !! uri
  ∧ diagnosticsAggregate (exec os_ReadFile op c) !! uri = diagnosticsAggregate c !! uri
  ∧ diagnosticsFile (exec os_ReadFile op c) !! uri = diagnosticsFile c !! uri.
Proof.
  intros Hop. destruct op; simpl in Hop; try discriminate; simpl;
    try apply String.eqb_neq in Hop; rewrite ?Delete_fields; simpl;
    rewrite ?lookup_insert_ne, ?lookup_delete_ne by done; try done.
  by destruct (UpdateCacheForURIFromDisk_frame os_ReadFile uri0 path c)
    as (_ & -> & -> & -> & _).
Qed.

(** X11. The merged read of an identifier changes only with a write to one of
    its three diagnostics entries: writes to other identifiers, to the
    content, module and position maps, and loads from disk leave it as it
    was. *)
Theorem GetAllDiagnosticsForURI_footprint op c uri :
  writes_diagnostics uri op = false →
  GetAllDiagnosticsForURI uri (exec os_ReadFile op c) = GetAllDiagnosticsForURI uri c.
Proof.
  intros Hop. rewrite !GetAllDiagnosticsForURI_entries.
  by destruct (writes_diagnostics_frame op c uri Hop) as (-> & -> & ->).
Qed.

(** X12. Parse errors only hide the other diagnostics: once the parse errors of
    an identifier are set to the empty list, the merged read returns the
    aggregate and file-local diagnostics that were cached all along, as if
    the parse entry had been removed; set to a non-empty list, it returns
    that list. *)
Theorem GetAllDiagnosticsForURI_parse_errors_hide c uri :
  GetAllDiagnosticsForURI uri (SetParseErrors uri [] c)
  = default [] (diagnosticsAggregate c !! uri) ++ default [] (diagnosticsFile c !! uri)
  ∧ GetAllDiagnosticsForURI uri (SetParseErrors uri [] c)
    = GetAllDiagnosticsForURI uri (delete_diagnosticsParseErrors uri c)
  ∧ (∀ d ds, GetAllDiagnosticsForURI uri (SetParseErrors uri (d :: ds) c) = d :: ds).
Proof.
  rewrite !GetAllDiagnosticsForURI_entries; simpl.
  rewrite lookup_insert_eq, lookup_delete_eq.
  repeat split. intros d ds.
  rewrite GetAllDiagnosticsForURI_entries; simpl. by rewrite lookup_insert_eq.
Qed.

(** X13. For the merged read of any identifier, clearing a map is the same as
    setting that identifier's entry to the empty list; after both clears
    only the parse errors are left, and after [Delete] nothing. *)
Theorem GetAllDiagnosticsForURI_after_clear c uri :
  GetAllDiagnosticsForURI uri (ClearFileDiagnostics c)
  = GetAllDiagnosticsForURI uri (SetFileDiagnostics uri [] c)
  ∧ GetAllDiagnosticsForURI uri (ClearAggregateDiagnostics c)
    = GetAllDiagnosticsForURI uri (SetAggregateDiagnostics uri [] c)
  ∧ GetAllDiagnosticsForURI uri (ClearAggregateDiagnostics (ClearFileDiagnostics c))
    = default [] (diagnosticsParseErrors c !! uri)
  ∧ GetAllDiagnosticsForURI uri (Delete uri c) = [].
Proof.
  rewrite !GetAllDiagnosticsForURI_entries, Delete_fields; simpl.
  rewrite !lookup_insert_eq, !lookup_empty, !lookup_delete_eq; simpl.
  repeat split; destruct (diagnosticsParseErrors c !! uri) as [[|d ds]|]; done.
Qed.

(** *** Races with [Delete] *)

(** X14. A merged read that races with [Delete] never shows the diagnostics
    that parse errors hide: when the identifier has parse errors the read
    returns them or the empty list; when it has none the read returns the
    aggregate list followed by the file-local list, the aggregate list
    alone, or the empty list, never the file-local list alone.  Without a
    delete in between it is the merged read itself. *)
Theorem GetAllDiagnosticsForURI_racing_Delete c uri (n1 n2 n3 : nat) :
  (n1 ≤ n2)%nat →
  (n2 ≤ n3)%nat →
  let merged := GetAllDiagnosticsForURI_at uri (Delete_progress uri n1 c)
                  (Delete_progress uri n2 c) (Delete_progress uri n3 c) in
  let aggDiags := default [] (diagnosticsAggregate c !! uri) in
  let fileDiags := default [] (diagnosticsFile c !! uri) in
  GetAllDiagnosticsForURI_at uri c c c = GetAllDiagnosticsForURI uri c
  ∧ (∀ d ds, diagnosticsParseErrors c !! uri = Some (d :: ds) →
       merged = d :: ds ∨ merged = [])
  ∧ (diagnosticsParseErrors c !! uri = None
     ∨ diagnosticsParseErrors c !! uri = Some [] →
     merged = aggDiags ++ fileDiags ∨ merged = aggDiags ∨ merged = []).
Proof.
  intros H12 H23 merged aggDiags fileDiags. split; [reflexivity|].
  subst merged aggDiags fileDiags.
  unfold GetAllDiagnosticsForURI_at, GetParseErrors, GetAggregateDiagnostics,
    GetFileDiagnostics, map_index.
  rewrite !Delete_progress_fields; simpl.
  destruct (Nat.ltb_spec 4 n1), (Nat.ltb_spec 3 n2), (Nat.ltb_spec 2 n3);
    try lia; rewrite ?lookup_delete_eq; simpl.
  - split; [auto | intros _; auto].
  - split.
    + intros d ds ->. simpl. auto.
    + intros [-> | ->]; simpl; auto.
  - split.
    + intros d ds ->. simpl. auto.
    + intros [-> | ->]; simpl;
        destruct (diagnosticsAggregate c !! uri) as [agg|]; simpl; auto.
  - split.
    + intros d ds ->. simpl. auto.
    + intros [-> | ->]; simpl;
        destruct (diagnosticsAggregate c !! uri) as [agg|];
        destruct (diagnosticsFile c !! uri) as [file|]; simpl;
        rewrite ?app_nil_r; auto.
Qed.

Lemma section_index_inj (g g' : Getter) :
  section_index g = section_index g' → g = g'.
Proof. by destruct g, g'. Qed.

(** A critical section of the deleting goroutine moves the race from one
    point of progress to the same or the next. *)
Lemma race_Deleter_section uri c schedule (n : nat) :
  ∃ m : nat, (n ≤ m)%nat
    ∧ race uri (Deleter_section :: schedule) (drop n (Delete_sections uri))
        (Delete_progress uri n c)
      = race uri schedule (drop m (Delete_sections uri)) (Delete_progress uri m c).
Proof.
  simpl. destruct (drop n (Delete_sections uri)) as [|f fs] eqn:Hdrop.
  - exists n. by rewrite Hdrop.
  - assert (Hf : Delete_sections uri !! n = Some f).
    { rewrite <- (Nat.add_0_r n), <- lookup_drop, Hdrop. reflexivity. }
    rewrite (drop_S _ _ _ Hf) in Hdrop. injection Hdrop as <-.
    exists (S n). split; [lia|]. by rewrite (Delete_progress_S _ _ _ _ Hf).
Qed.

(** Once a getter has missed the identifier, it misses it for the rest of
    the race. *)
Lemma race_stays_deleted uri c schedule (n : nat) g :
  found g uri (Delete_progress uri n c) = false →
  Forall (λ o, section_index (fst o) = section_index g → snd o = false)
    (race uri schedule (drop n (Delete_sections uri)) (Delete_progress uri n c)).
Proof.
  intros Hmiss. eapply Forall_impl; [apply race_reads_progress|].
  intros [g' b] (k & Hk & Hb) Hg. simpl in *.
  apply section_index_inj in Hg as ->.
  rewrite Hb, Delete_progress_found. rewrite Delete_progress_found in Hmiss.
  repeat case_bool_decide; try done; lia.
Qed.

(** X15. Each map on its own is deleted atomically: in any race of readers with
    [Delete], the calls of one getter find the identifier up to some point
    and miss it from then on. *)
Theorem race_atomic_per_getter uri c schedule g :
  atomic_history (observations_of g (race uri schedule (Delete_sections uri) c)) = true.
Proof.
  change (atomic_history (observations_of g
            (race uri schedule (drop 0 (Delete_sections uri))
               (Delete_progress uri 0 c))) = true).
  generalize 0%nat as n. induction schedule as [|ev schedule IH]; intros n; [done|].
  destruct ev as [|g'].
  - destruct (race_Deleter_section uri c schedule n) as (m & _ & ->). apply IH.
  - simpl. unfold observations_of. rewrite filter_cons. simpl.
    case_decide as Hg; [|apply IH].
    apply section_index_inj in Hg as ->.
    destruct (found g uri (Delete_progress uri n c)) eqn:Hfound; simpl; [apply IH|].
    apply forallb_forall. intros o Ho.
    apply list_elem_of_In, list_elem_of_filter in Ho as [Hg Ho].
    pose proof (race_stays_deleted uri c schedule n g Hfound) as Hall.
    rewrite Forall_forall in Hall. by rewrite (Hall o Ho Hg).
Qed.

Lemma race_descending_reads uri schedule :
  ∀ (bound : nat) pending c,
    reads_descending bound schedule = true →
    Forall (λ o, (section_index (fst o) ≤ bound)%nat) (race uri schedule pending c).
Proof.
  induction schedule as [|ev schedule IH]; intros bound pending c Hdesc; [constructor|].
  destruct ev as [|g]; simpl in *.
  - destruct pending; by apply IH.
  - apply andb_true_iff in Hdesc as [Hg Hdesc]. apply Nat.leb_le in Hg.
    constructor; [done|].
    eapply Forall_impl; [by apply IH|]. simpl. intros o Ho. lia.
Qed.

(** X16. Readers that call the getters against the order of [Delete], on an
    identifier that had an entry in all six maps, never see a partly
    deleted identifier: once a getter has missed it, every later call
    misses it. *)
Theorem race_descending_atomic uri c schedule (bound : nat) :
  (∀ g, found g uri c = true) →
  reads_descending bound schedule = true →
  atomic_history (race uri schedule (Delete_sections uri) c) = true.
Proof.
  intros Hall.
  change (reads_descending bound schedule = true →
          atomic_history (race uri schedule (drop 0 (Delete_sections uri))
                            (Delete_progress uri 0 c)) = true).
  generalize 0%nat as n. revert bound.
  induction schedule as [|ev schedule IH]; intros bound n Hdesc; [done|].
  destruct ev as [|g].
  - destruct (race_Deleter_section uri c schedule n) as (m & _ & ->).
    by apply (IH bound).
  - simpl in Hdesc. apply andb_true_iff in Hdesc as [_ Hdesc]. simpl.
    destruct (found g uri (Delete_progress uri n c)) eqn:Hfound;
      [by apply (IH (section_index g))|].
    apply forallb_forall. intros [g' b] Ho. apply list_elem_of_In in Ho. simpl.
    pose proof (race_descending_reads uri schedule (section_index g)
                  (drop n (Delete_sections uri)) (Delete_progress uri n c) Hdesc) as Hle.
    pose proof (race_reads_progress uri c schedule n) as Hread.
    rewrite Forall_forall in Hle, Hread.
    specialize (Hle _ Ho). destruct (Hread _ Ho) as (k & Hk & Hb). simpl in *.
    rewrite Delete_progress_found, Hall in Hfound.
    rewrite Hb, Delete_progress_found.
    repeat case_bool_decide; try done; lia.
Qed.

(** *** Several deletes at once *)

Lemma Delete_section_commute (g g' : Getter) uri uri' c :
  Delete_section g uri (Delete_section g' uri' c)
  = Delete_section g' uri' (Delete_section g uri c).
Proof.
  destruct g, g'; simpl;
    unfold delete_fileContents, delete_modules, delete_diagnosticsFile,
      delete_diagnosticsAggregate, delete_diagnosticsParseErrors,
      delete_builtinPositionsFile; simpl; f_equal; apply delete_delete.
Qed.

Lemma run_Delete_sections_Permutation (steps steps' : list (Getter * string)) :
  steps ≡ₚ steps' →
  ∀ c, run_Delete_sections steps c = run_Delete_sections steps' c.
Proof.
  unfold run_Delete_sections.
  induction 1 as [|step l l' _ IH|a b l|l l' l'' _ IH1 _ IH2]; intros c; simpl.
  - done.
  - apply IH.
  - by rewrite Delete_section_commute.
  - by rewrite IH1.
Qed.

(** X17. Two goroutines deleting at once: in whatever order their twelve
    critical sections run, the cache ends as after one [Delete] followed by
    the other; the six sections of one goroutine alone are [Delete]. *)
Theorem Delete_confluent uri uri' (steps : list (Getter * string)) c :
  steps ≡ₚ ((λ g, (g, uri)) <$> getters) ++ ((λ g, (g, uri')) <$> getters) →
  run_Delete_sections steps c = Delete uri' (Delete uri c)
  ∧ run_Delete_sections ((λ g, (g, uri)) <$> getters) c = Delete uri c.
Proof.
  intros Hsteps. split; [|reflexivity].
  by rewrite (run_Delete_sections_Permutation _ _ Hsteps).
Qed.

(** *** Where entries come from *)

Lemma run_invariant (P : Cache Diagnostic ast_Module BuiltinPosition → Prop)
    (allowed : Op Diagnostic ast_Module BuiltinPosition → bool) ops c :
  (∀ op c0, allowed op = true → P c0 → P (exec os_ReadFile op c0)) →
  P c →
  forallb allowed ops = true →
  P (run os_ReadFile ops c).
Proof.
  intros Hstep. revert c. induction ops as [|op ops IH]; intros c Hc Hops; [done|].
  simpl in Hops. apply andb_true_iff in Hops as [Hop Hops].
  simpl. apply IH; [by apply Hstep | done].
Qed.

(** X18. Content, module and position entries are created by their setters
    alone, the content entry also by a load from disk: after any history
    of calls from a new cache without such a call for an identifier, the
    getter returns the zero value and not-found for it. *)
Theorem entries_come_from_setters uri ops :
  (forallb (λ op, negb (sets_fileContents uri op)) ops = true →
   GetFileContents uri (run os_ReadFile ops NewCache) = (EmptyString, false))
  ∧ (forallb (λ op, negb (sets_module uri op)) ops = true →
     GetModule uri (run os_ReadFile ops NewCache) = (None, false))
  ∧ (forallb (λ op, negb (sets_builtinPositions uri op)) ops = true →
     GetBuiltinPositions uri (run os_ReadFile ops NewCache) = (∅, false)).
Proof.
  split; [|split]; intros Hops; apply map_index_None.
  - apply (run_invariant (λ c, fileContents c !! uri = None)
             (λ op, negb (sets_fileContents uri op)) ops NewCache);
      [|done|done].
    intros op c Hop Hc. destruct op; simpl in *; rewrite ?Delete_fields; simpl;
      try done; try (apply negb_true_iff, String.eqb_neq in Hop).
    + by rewrite lookup_insert_ne.
    + rewrite lookup_delete_None; by right.
    + unfold UpdateCacheForURIFromDisk.
      destruct (os_ReadFile path) as [content|err]; simpl; [|done].
      destruct (GetFileContents uri0 c) as [cached ok].
      destruct (ok && String.eqb cached content); simpl; [done|].
      by rewrite lookup_insert_ne.
  - apply (run_invariant (λ c, modules c !! uri = None)
             (λ op, negb (sets_module uri op)) ops NewCache);
      [|done|done].
    intros op c Hop Hc. destruct op; simpl in *; rewrite ?Delete_fields; simpl;
      try done; try (apply negb_true_iff, String.eqb_neq in Hop).
    + by rewrite lookup_insert_ne.
    + rewrite lookup_delete_None; by right.
    + by destruct (UpdateCacheForURIFromDisk_frame os_ReadFile uri0 path c) as (-> & _).
  - apply (run_invariant (λ c, builtinPositionsFile c !! uri = None)
             (λ op, negb (sets_builtinPositions uri op)) ops NewCache);
      [|done|done].
    intros op c Hop Hc. destruct op; simpl in *; rewrite ?Delete_fields; simpl;
      try done; try (apply negb_true_iff, String.eqb_neq in Hop).
    + by rewrite lookup_insert_ne.
    + rewrite lookup_delete_None; by right.
    + by destruct (UpdateCacheForURIFromDisk_frame os_ReadFile uri0 path c)
        as (_ & _ & _ & _ & ->).
Qed.

End CacheLaws.

(** ** Instances of the laws on concrete caches *)

Lemma Set_commutes_witness :
  SetParseErrors "a.rego" [4%nat] (SetParseErrors "b.rego" [] cache_ab)
  = SetParseErrors "b.rego" [] (SetParseErrors "a.rego" [4%nat] cache_ab).
Proof.
  destruct (Set_commutes cache_ab "a.rego" "b.rego") as (_ & _ & _ & _ & H & _);
    [discriminate | apply H].
Defined.

Lemma Delete_other_identifier_witness :
  GetParseErrors "b.rego" (Delete "a.rego" cache_ab) = ([7%nat], true).
Proof.
  destruct (Delete_other_identifier cache_ab "a.rego" "b.rego")
    as (_ & _ & _ & _ & H & _); [discriminate|].
  rewrite H. vm_compute. reflexivity.
Defined.

Lemma Delete_absent_witness : Delete "c.rego" cache_ab = cache_ab.
Proof. apply Delete_absent; vm_compute; reflexivity. Defined.

Lemma Delete_erases_history_witness :
  Delete "c.rego"
    (run disk_a [OpSetModule "c.rego" None; OpUpdateCacheForURIFromDisk "c.rego" "/w/c.rego";
                 OpSetParseErrors "c.rego" [9%nat]] cache_ab)
  = Delete "c.rego" cache_ab.
Proof.
  refine (proj1 (Delete_erases_history disk_a "c.rego" _ cache_ab _)).
  vm_compute. reflexivity.
Defined.

Lemma UpdateCacheForURIFromDisk_footprint_witness :
  UpdateCacheForURIFromDisk disk_unreadable "a.rego" "/w/a.rego" cache_ab
  = ((EmptyString, Some (Errorf "failed to read file: " tt)), cache_ab).
Proof.
  destruct (UpdateCacheForURIFromDisk_footprint disk_unreadable "a.rego" "/w/a.rego"
              cache_ab) as (H & _).
  apply H. reflexivity.
Defined.

Lemma UpdateCacheForURIFromDisk_as_SetFileContents_witness :
  GetFileContents "b.rego"
    (snd (UpdateCacheForURIFromDisk disk_a "b.rego" "/w/b.rego" cache_ab))
  = ("package a", true).
Proof.
  apply (UpdateCacheForURIFromDisk_as_SetFileContents disk_a "b.rego" "/w/b.rego"
           cache_ab "package a").
  reflexivity.
Defined.

Lemma GetAllDiagnosticsForURI_footprint_witness :
  GetAllDiagnosticsForURI "a.rego"
    (exec disk_a (OpSetParseErrors "b.rego" [8%nat]) cache_ab)
  = GetAllDiagnosticsForURI "a.rego" cache_ab.
Proof.
  apply (GetAllDiagnosticsForURI_footprint disk_a). vm_compute. reflexivity.
Defined.

Lemma GetAllDiagnosticsForURI_racing_Delete_witness :
  GetAllDiagnosticsForURI_at "a.rego" (Delete_progress "a.rego" 2 cache_ab)
    (Delete_progress "a.rego" 3 cache_ab) (Delete_progress "a.rego" 5 cache_ab)
  = [1%nat]
  ∨ GetAllDiagnosticsForURI_at "a.rego" (Delete_progress "a.rego" 2 cache_ab)
      (Delete_progress "a.rego" 3 cache_ab) (Delete_progress "a.rego" 5 cache_ab)
    = [].
Proof.
  assert (H23 : (2 ≤ 3)%nat) by lia. assert (H35 : (3 ≤ 5)%nat) by lia.
  destruct (GetAllDiagnosticsForURI_racing_Delete cache_ab "a.rego" 2 3 5 H23 H35)
    as (_ & H & _).
  apply (H 1%nat []). vm_compute. reflexivity.
Defined.

Lemma race_descending_atomic_witness :
  atomic_history
    (race "a.rego"
       [Reader_get OfBuiltinPositions; Deleter_section; Reader_get OfModule;
        Deleter_section; Deleter_section; Reader_get OfFileContents]
       (Delete_sections "a.rego") cache_ab) = true.
Proof.
  apply (race_descending_atomic "a.rego" cache_ab _ 5).
  - intros g. destruct g; vm_compute; reflexivity.
  - vm_compute. reflexivity.
Defined.

Lemma Delete_confluent_witness :
  run_Delete_sections
    (((λ g, (g, "b.rego")) <$> getters) ++ ((λ g, (g, "a.rego")) <$> getters)) cache_ab
  = Delete "b.rego" (Delete "a.rego" cache_ab).
Proof.
  refine (proj1 (Delete_confluent "a.rego" "b.rego"
                   (((λ g, (g, "b.rego")) <$> getters)
                    ++ ((λ g, (g, "a.rego")) <$> getters)) cache_ab _)).
  apply Permutation_app_comm.
Defined.

Lemma entries_come_from_setters_witness :
  GetModule "a.rego"
    (run disk_a [OpSetFileContents "a.rego" "package a"; OpSetModule "b.rego" (Some tt);
                 OpUpdateCacheForURIFromDisk "a.rego" "/w/a.rego"]
       (NewCache (Diagnostic := nat) (ast_Module := unit) (BuiltinPosition := unit)))
  = (None, false).
Proof.
  refine (proj1 (proj2 (entries_come_from_setters disk_a "a.rego" _)) _).
  vm_compute. reflexivity.
Defined.
